(** * Udaan education PvP client: a shallow embedding of its business rules

  The repository is a React/TypeScript client over a hosted Postgres
  backend.  This development embeds the parts of it that carry logic:

  - [GameRouter.calculateExpGained] (GameRouter.tsx, useMatches, PvP page),
    the router component and the PvP page's update of the experience;
  - the [update_user_rank] trigger of the SQL migrations;
  - [useMatchmaking]'s [joinQueue] and [leaveQueue] against a model of the
    [matchmaking_queue] table and its row-level-security policies;
  - the chat helper [AIService] of aiService.ts;
  - the two timed quiz components, [ComprehensionBattle] and [SpellingBee],
    as transition systems over their React state, with the part of
    [useContent] that feeds the spelling bee.

  JavaScript numbers are IEEE doubles; the counts and timers of this code
  are integers ([nat] or [Z] here), and the one place that divides,
  [calculateExpGained], is stated over an arbitrary rounding operator on
  the rationals (see [Js.rounding]).  Strings are byte strings; case
  mapping and trimming are those of JavaScript on ASCII text. *)

From Stdlib Require Import ZArith QArith Qround Qabs List String Ascii Bool Lia Arith.
From Stdlib Require Import DecimalString.
Import ListNotations.

Set Implicit Arguments.

(* ------------------------------------------------------------------ *)
(** * JavaScript primitives used by the sources                        *)
(* ------------------------------------------------------------------ *)

Module Js.

(** ** Exceptions

    A computation either returns or throws one of the error objects that
    occur in the sources; [name] is the [error.name] property read by
    [callProvider]'s handler. *)

Inductive error : Type :=
| TypeError (msg : string)
| AbortError
| SyntaxError
| PostgrestError (code : string)
| Error (msg : string).

Definition name (e : error) : string :=
  match e with
  | TypeError _ => "TypeError"
  | AbortError => "AbortError"
  | SyntaxError => "SyntaxError"
  | PostgrestError _ => "PostgrestError"
  | Error _ => "Error"
  end.

Inductive result (A : Type) : Type :=
| Return (a : A)
| Throw (e : error).
Arguments Return {A} a.
Arguments Throw {A} e.

Definition bind {A B} (m : result A) (k : A -> result B) : result B :=
  match m with
  | Return a => k a
  | Throw e => Throw e
  end.

(** [try { body } catch (error) { handler }] *)
Definition try_catch {A} (body : result A) (handler : error -> result A) : result A :=
  match body with
  | Return a => Return a
  | Throw e => handler e
  end.

Definition returns {A} (m : result A) : Prop := exists a, m = Return a.

(** ** Code with effects

    A piece of code that reads and writes a store [S] and may throw: it
    maps the store before to the store after and a result.  What was
    written before an exception stays written. *)

Section Eff.
Variable S : Type.

Definition eff (A : Type) : Type := S -> S * result A.

Definition ret {A} (a : A) : eff A := fun s => (s, Return a).

Definition throw {A} (e : error) : eff A := fun s => (s, Throw e).

Definition lift {A} (r : result A) : eff A := fun s => (s, r).

Definition and_then {A B} (m : eff A) (k : A -> eff B) : eff B :=
  fun s =>
    match m s with
    | (s', Return a) => k a s'
    | (s', Throw e) => (s', Throw e)
    end.

(** [try { m } catch (error) { h error }] *)
Definition catch {A} (m : eff A) (h : error -> eff A) : eff A :=
  fun s =>
    match m s with
    | (s', Return a) => (s', Return a)
    | (s', Throw e) => h e s'
    end.

Definition modify (f : S -> S) : eff unit := fun s => (f s, Return tt).

Definition get : eff S := fun s => (s, Return s).

End Eff.

Declare Scope eff_scope.
Delimit Scope eff_scope with eff.
Notation "x <- m ;; k" := (and_then m (fun x => k))
  (at level 61, m at next level, right associativity) : eff_scope.
Notation "m ;; k" := (and_then m (fun _ => k))
  (at level 61, right associativity) : eff_scope.

(** ** Numbers

    [rounding] is what the embedding needs of IEEE-754 round-to-nearest on
    finite values: it is a function of the real value, monotone, and exact
    on the integers a double represents exactly.  Exact rational
    arithmetic ([exact], below) is one instance. *)

Record rounding : Type := {
  rnd :> Q -> Q;
  rnd_proper : forall x y, x == y -> rnd x == rnd y;
  rnd_mono : forall x y, x <= y -> rnd x <= rnd y;
  rnd_int : forall z : Z, (Z.abs z <= 2 ^ 53)%Z -> rnd (inject_Z z) == inject_Z z
}.

Definition exact : rounding :=
  {| rnd := fun q => q;
     rnd_proper := fun _ _ H => H;
     rnd_mono := fun _ _ H => H;
     rnd_int := fun z _ => Qeq_refl (inject_Z z) |}.

(** The arithmetic operators on doubles: the exact result, rounded. *)
Definition fdiv (R : rounding) (x y : Q) : Q := R (x / y).
Definition fmul (R : rounding) (x y : Q) : Q := R (x * y).
Definition fadd (R : rounding) (x y : Q) : Q := R (x + y).

(** [Math.round]: the nearest integer, halves towards +infinity.  It is
    computed exactly on a finite double. *)
Definition Math_round (x : Q) : Z := Qfloor (x + (1 # 2)).

(** [Math.max] on integers. *)
Definition Math_max (a b : Z) : Z := Z.max a b.

(** A number that is an integer, or [NaN] (what [parseInt] returns). *)
Inductive number : Type := NaN | Num (z : Z).

(** [a === b] on numbers: [NaN] equals nothing, itself included. *)
Definition number_eq (a b : number) : bool :=
  match a, b with
  | Num x, Num y => (x =? y)%Z
  | _, _ => false
  end.

(** ** Strings *)

Definition empty : string := EmptyString.

Definition is_upper (c : ascii) : bool :=
  let n := nat_of_ascii c in (65 <=? n)%nat && (n <=? 90)%nat.

Definition lower_ascii (c : ascii) : ascii :=
  if is_upper c then ascii_of_nat (nat_of_ascii c + 32) else c.

(** [s.toLowerCase()] *)
Fixpoint toLowerCase (s : string) : string :=
  match s with
  | EmptyString => EmptyString
  | String c s' => String (lower_ascii c) (toLowerCase s')
  end.

(** White space as [trim] and [\s] see it: TAB, LF, VT, FF, CR and space. *)
Definition is_space (c : ascii) : bool :=
  let n := nat_of_ascii c in ((9 <=? n)%nat && (n <=? 13)%nat) || (n =? 32)%nat.

Fixpoint trimStart (s : string) : string :=
  match s with
  | EmptyString => EmptyString
  | String c s' => if is_space c then trimStart s' else s
  end.

Fixpoint trimEnd (s : string) : string :=
  match s with
  | EmptyString => EmptyString
  | String c s' =>
      match trimEnd s' with
      | EmptyString => if is_space c then EmptyString else String c EmptyString
      | t => String c t
      end
  end.

(** [s.trim()] *)
Definition trim (s : string) : string := trimEnd (trimStart s).

(** A string in a condition: every string but the empty one is truthy. *)
Definition truthy (s : string) : bool :=
  match s with
  | EmptyString => false
  | String _ _ => true
  end.

(** [s.includes(sub)] *)
Fixpoint includes (s sub : string) : bool :=
  prefix sub s ||
  match s with
  | EmptyString => false
  | String _ s' => includes s' sub
  end.

(** Whether every character of a string passes a test. *)
Fixpoint all_chars (p : ascii -> bool) (s : string) : bool :=
  match s with
  | EmptyString => true
  | String c s' => p c && all_chars p s'
  end.

(** [n.toString()] of a non-negative integer. *)
Definition toString (n : nat) : string := NilZero.string_of_uint (Nat.to_uint n).

(** ** [parseInt(s)] with no radix argument: leading white space, an
    optional sign, an optional [0x] prefix, then the longest run of digits of
    the radix; [NaN] when there is none. *)

Definition digit_value (radix : Z) (c : ascii) : option Z :=
  let n := Z.of_nat (nat_of_ascii c) in
  let d :=
    if (48 <=? n)%Z && (n <=? 57)%Z then (n - 48)%Z
    else if (97 <=? n)%Z && (n <=? 122)%Z then (n - 87)%Z
    else if (65 <=? n)%Z && (n <=? 90)%Z then (n - 55)%Z
    else radix in
  if (d <? radix)%Z then Some d else None.

Fixpoint parse_digits (radix : Z) (s : string) (acc : option Z) : option Z :=
  match s with
  | EmptyString => acc
  | String c s' =>
      match digit_value radix c with
      | Some d =>
          parse_digits radix s'
            (Some (radix * match acc with Some a => a | None => 0%Z end + d)%Z)
      | None => acc
      end
  end.

Definition parseInt (s : string) : number :=
  let s0 := trimStart s in
  let '(sign, s1) :=
    match s0 with
    | String "-" r => ((-1)%Z, r)
    | String "+" r => (1%Z, r)
    | _ => (1%Z, s0)
    end in
  let '(radix, s2) :=
    match s1 with
    | String "0" (String "x" r) | String "0" (String "X" r) => (16%Z, r)
    | _ => (10%Z, s1)
    end in
  match parse_digits radix s2 None with
  | Some n => Num (sign * n)
  | None => NaN
  end.

(** ** Values and arrays

    The values the two games keep in their [answers] arrays.  An array is a
    list of slots; a slot is a value or a hole ([None]), which index
    assignment beyond the end leaves behind. *)

Inductive value : Type :=
| undefined
| null
| VNum (n : number)
| VStr (s : string).

(** [a === b] *)
Definition strict_eq (a b : value) : bool :=
  match a, b with
  | undefined, undefined => true
  | null, null => true
  | VNum x, VNum y => number_eq x y
  | VStr x, VStr y => String.eqb x y
  | _, _ => false
  end.

Definition array : Type := list (option value).

(** [new Array(n).fill(v)] *)
Definition Array_fill (n : nat) (v : value) : array := repeat (Some v) n.

(** [[...a]]: a dense copy, holes read as [undefined]. *)
Definition spread (a : array) : list value :=
  map (fun slot => match slot with Some v => v | None => undefined end) a.

(** An array literal of the given elements. *)
Definition literal (l : list value) : array := map Some l.

(** [a.slice(start, stop)] and [a.slice(start)] for indices within
    [0 .. ]; holes are kept. *)
Definition slice (a : array) (start stop : nat) : array :=
  firstn (stop - start) (skipn start a).

Definition slice_from (a : array) (start : nat) : array := skipn start a.

(** [a[i] = v]: replaces slot [i], extending the array with holes when [i]
    is beyond its end. *)
Fixpoint assign (a : array) (i : nat) (v : value) : array :=
  match i, a with
  | O, [] => [Some v]
  | O, _ :: t => Some v :: t
  | S i', [] => None :: assign [] i' v
  | S i', x :: t => x :: assign t i' v
  end.

(** [a.reduce((acc, x, index) => f(acc, x, index), init)], started at index
    [i]: holes are skipped, an exception of the callback ends the loop. *)
Fixpoint reduce_from {B : Type} (f : B -> value -> nat -> result B)
    (a : array) (i : nat) (acc : B) : result B :=
  match a with
  | [] => Return acc
  | None :: t => reduce_from f t (S i) acc
  | Some x :: t => bind (f acc x i) (fun acc' => reduce_from f t (S i) acc')
  end.

Definition reduce {B : Type} (f : B -> value -> nat -> result B)
    (a : array) (init : B) : result B :=
  reduce_from f a 0 init.

(** [x.toLowerCase()] on a value: only a string has the method. *)
Definition toLowerCase_method (x : value) : result string :=
  match x with
  | VStr s => Return (toLowerCase s)
  | undefined => Throw (TypeError "Cannot read properties of undefined")
  | null => Throw (TypeError "Cannot read properties of null")
  | VNum _ => Throw (TypeError "toLowerCase is not a function")
  end.

(** ** [Math.floor(Math.random() * n)]

    One draw of [Math.random()], seen through the only use the sources make
    of it: for every positive [n] it yields an index below [n]. *)
Record draw : Type := {
  index_below :> nat -> nat;
  index_below_lt : forall n, (0 < n)%nat -> (index_below n < n)%nat
}.

(** The draw that falls into the [k]-th of [n] equal parts, cyclically. *)
Definition draw_of (k : nat) : draw :=
  {| index_below := fun n => Nat.modulo k n;
     index_below_lt := fun n H =>
       Nat.mod_upper_bound k n (proj2 (Nat.neq_0_lt_0 n) H) |}.

(** ** Promises: an asynchronous call settles with a result, or stays
    pending for ever. *)
Inductive promise (A : Type) : Type :=
| Settled (r : result A)
| Pending.
Arguments Settled {A} r.
Arguments Pending {A}.

(** [await p] followed by [k]. *)
Definition await {A B : Type} (p : promise A) (k : result A -> promise B) : promise B :=
  match p with
  | Settled r => k r
  | Pending => Pending
  end.

End Js.

(* ------------------------------------------------------------------ *)
(** * GameRouter.tsx: experience gained from a result                  *)
(* ------------------------------------------------------------------ *)

Module GameRouter.
Import Js.

(** [export type GameMode = 'comprehension' | 'spellbee'] *)
Inductive GameMode : Type := comprehension | spellbee.

Definition GameMode_eqb (a b : GameMode) : bool :=
  match a, b with
  | comprehension, comprehension | spellbee, spellbee => true
  | _, _ => false
  end.

(** [calculateExpGained(score, total, gameMode)].  [score] and [total] are
    the integer counts reported by a game.  With [total = 0] the quotient
    is [NaN] or an infinity and so is the result: [None].  The same
    function is repeated verbatim in the match hook and in the PvP page. *)
Definition calculateExpGained (R : rounding) (score total : Z) (gameMode : GameMode)
  : option Z :=
  let baseExp : Q := if GameMode_eqb gameMode comprehension then 10 else 15 in
  let maxBonus : Q := if GameMode_eqb gameMode comprehension then 15 else 15 in
  if (total =? 0)%Z then None
  else
    let percentage := fdiv R (inject_Z score) (inject_Z total) in
    Some (Math_round (fadd R baseExp (fmul R maxBonus percentage))).

End GameRouter.

(* ------------------------------------------------------------------ *)
(** * The SQL migrations: profiles and the rank trigger                *)
(* ------------------------------------------------------------------ *)

Module Sql.

(** An [INTEGER] column without [NOT NULL]: a value or [NULL]. *)
Definition integer : Type := option Z.

(** [a / b] on integers truncates towards zero; [NULL] is contagious. *)
Definition div (a b : integer) : integer :=
  match a, b with
  | Some x, Some y => Some (Z.quot x y)
  | _, _ => None
  end.

Definition add (a b : integer) : integer :=
  match a, b with
  | Some x, Some y => Some (x + y)%Z
  | _, _ => None
  end.

(** [GREATEST(a, b)]: [NULL] arguments are ignored; the result is [NULL]
    only when both are. *)
Definition GREATEST (a b : integer) : integer :=
  match a, b with
  | Some x, Some y => Some (Z.max x y)
  | Some x, None => Some x
  | None, y => y
  end.

End Sql.

Module Profiles.

(** [public.profiles], the columns the trigger reads and writes:
    [exp INTEGER DEFAULT 0], [rank INTEGER DEFAULT 1]. *)
Record profile : Type := {
  id : string;
  exp : Sql.integer;
  rank : Sql.integer
}.

(** [update_user_rank()]:
    [NEW.rank = GREATEST(1, NEW.exp / 100 + 1); RETURN NEW;] *)
Definition update_user_rank (NEW : profile) : profile :=
  {| id := id NEW;
     exp := exp NEW;
     rank := Sql.GREATEST (Some 1%Z)
               (Sql.add (Sql.div (exp NEW) (Some 100%Z)) (Some 1%Z)) |}.

(** [UPDATE profiles SET exp = new_exp] on one row: the trigger
    [update_rank_on_exp_change] runs [BEFORE UPDATE OF exp]. *)
Definition update_exp (OLD : profile) (new_exp : Sql.integer) : profile :=
  update_user_rank {| id := id OLD; exp := new_exp; rank := rank OLD |}.

(** The rank the trigger derives from an experience value. *)
Definition rank_of_exp (e : Sql.integer) : Sql.integer :=
  rank (update_user_rank {| id := Js.empty; exp := e; rank := None |}).

End Profiles.

(* ------------------------------------------------------------------ *)
(** * The PvP page: experience after a game                            *)
(* ------------------------------------------------------------------ *)

Module PvP.
Import Js GameRouter Profiles.

(** The two notifications of [handleGameEnd]. *)
Inductive toast : Type :=
| game_complete (expGained : option Z) (score total : Z)
| update_failed.

(** [(profile?.exp || 0)]: no profile, a [NULL] and 0 all read as 0. *)
Definition exp_or_0 (cached : option profile) : Z :=
  match cached with
  | Some p => match exp p with Some e => e | None => 0%Z end
  | None => 0%Z
  end.

(** [handleGameEnd(score, totalQuestions, gameMode)] as it acts on the
    player's row: [cached] is the profile the page holds, [answered]
    whether the update is carried out without an error.  A number that is
    [NaN] or infinite ([None]) is sent as [null] in the JSON body of the
    update, and stored as [NULL]. *)
Definition handleGameEnd (R : rounding) (cached : option profile) (answered : bool)
    (score totalQuestions : Z) (gameMode : GameMode) (row : profile) : profile * toast :=
  let expGained := calculateExpGained R score totalQuestions gameMode in
  let newExp :=
    match expGained with
    | Some gained => Some (exp_or_0 cached + gained)%Z
    | None => None
    end in
  if answered then (update_exp row newExp, game_complete expGained score totalQuestions)
  else (row, update_failed).

(** A player with 740 points of experience, for examples. *)
Definition veteran : profile :=
  {| id := "alice"; exp := Some 740%Z; rank := Some 8%Z |}.

End PvP.

(* ------------------------------------------------------------------ *)
(** * useMatchmaking.ts against the [matchmaking_queue] table          *)
(* ------------------------------------------------------------------ *)

Module Matchmaking.
Import Js GameRouter.
Local Open Scope eff_scope.

(** A row of [public.matchmaking_queue]. *)
Record queue_row : Type := {
  row_id : nat;
  player_id : string;
  game_mode : GameMode;
  skill_level : Z
}.

(** The database: the table, the next row id to hand out, and whether the
    table carries [UNIQUE(player_id, game_mode)] (the table is created by
    two migrations, one with the constraint and one without). *)
Record database : Type := {
  matchmaking_queue : list queue_row;
  next_id : nat;
  unique_player_mode : bool
}.

(** The two statements the hook sends. *)
Inductive request : Type :=
| delete_eq_player_id (uid : string)
| insert (player : string) (mode : GameMode) (skill : Z).

(** The row-level-security predicate of both migrations,
    [auth.uid() = player_id]. *)
Definition own_row (auth : option string) (r : queue_row) : bool :=
  match auth with
  | Some u => String.eqb u (player_id r)
  | None => false
  end.

Definition same_key (player : string) (mode : GameMode) (r : queue_row) : bool :=
  String.eqb (player_id r) player && GameMode_eqb (game_mode r) mode.

(** The database runs one statement for a session whose [auth.uid()] is
    [auth].  A delete removes the rows that match its filter and pass the
    policy; an insert is refused by the policy ([42501]) or by the unique
    constraint ([23505]), or appends one row. *)
Definition execute (auth : option string) (q : request) (d : database)
  : database * option error :=
  match q with
  | delete_eq_player_id uid =>
      ({| matchmaking_queue :=
            filter (fun r => negb (String.eqb (player_id r) uid && own_row auth r))
                   (matchmaking_queue d);
          next_id := next_id d;
          unique_player_mode := unique_player_mode d |}, None)
  | insert player mode skill =>
      let r := {| row_id := next_id d; player_id := player;
                  game_mode := mode; skill_level := skill |} in
      if negb (own_row auth r) then (d, Some (PostgrestError "42501"))
      else if unique_player_mode d && existsb (same_key player mode) (matchmaking_queue d)
      then (d, Some (PostgrestError "23505"))
      else
        ({| matchmaking_queue := matchmaking_queue d ++ [r];
            next_id := S (next_id d);
            unique_player_mode := unique_player_mode d |}, None)
  end.

(** What the network does to one request: it is delivered and answered,
    it is lost on the way, or it is carried out and the answer is lost. *)
Inductive fate : Type := delivered | dropped | reply_lost.

(** The world of the hook: the database, the session of the client, the
    requests sent so far (oldest first), the fates of the coming requests
    (a missing one is [delivered]) and the realtime filters subscribed. *)
Record world : Type := {
  db : database;
  auth_uid : option string;
  sent : list request;
  network : list fate;
  channels : list string
}.

(** [await supabase.from('matchmaking_queue')...]: the client never
    throws; it resolves to a value whose [error] field is set or is not. *)
Definition send (q : request) (w : world) : world * option error :=
  let f := match network w with [] => delivered | f :: _ => f end in
  let '(d, err) :=
    match f with
    | delivered => execute (auth_uid w) q (db w)
    | dropped => (db w, Some (PostgrestError EmptyString))
    | reply_lost =>
        (fst (execute (auth_uid w) q (db w)), Some (PostgrestError EmptyString))
    end in
  ({| db := d; auth_uid := auth_uid w; sent := sent w ++ [q];
      network := tl (network w); channels := channels w |}, err).

Record User : Type := { user_id : string }.

Record Opponent : Type := { opponent_id : string; username : string }.

Record MatchmakingState : Type := {
  isQueued : bool;
  isMatched : bool;
  gameId : option string;
  opponent : option Opponent;
  estimatedWaitTime : Z
}.

Definition initialState : MatchmakingState :=
  {| isQueued := false; isMatched := false; gameId := None; opponent := None;
     estimatedWaitTime := 30 |}.

(** The store of the hook's code: its React state and the world. *)
Definition store : Type := (MatchmakingState * world)%type.

Definition request_ (q : request) : eff store (option error) :=
  fun s => let '(w', err) := send q (snd s) in ((fst s, w'), Return err).

Definition setState (f : MatchmakingState -> MatchmakingState) : eff store unit :=
  modify (fun s : store => (f (fst s), snd s)).

(** [monitorForMatches()]: subscribes to inserts on [active_games]. *)
Definition monitorForMatches (user : option User) : eff store unit :=
  match user with
  | None => ret tt
  | Some u =>
      modify (fun s : store =>
        (fst s,
         {| db := db (snd s); auth_uid := auth_uid (snd s); sent := sent (snd s);
            network := network (snd s);
            channels := channels (snd s) ++
              [("player1_id=eq." ++ user_id u ++ ",player2_id=eq." ++ user_id u)%string] |}))
  end.

Definition joinQueue (user : option User) (gameMode : GameMode) : eff store unit :=
  match user with
  | None => ret tt
  | Some u =>
      catch
        (_ <- request_ (delete_eq_player_id (user_id u)) ;;
         error <- request_ (insert (user_id u) gameMode 1) ;;
         match error with Some e => throw e | None => ret tt end ;;
         setState (fun prev =>
           {| isQueued := true; isMatched := false; gameId := None; opponent := None;
              estimatedWaitTime := estimatedWaitTime prev |}) ;;
         monitorForMatches user)
        (fun error => throw error)
  end.

Definition leaveQueue (user : option User) : eff store unit :=
  match user with
  | None => ret tt
  | Some u =>
      catch
        (_ <- request_ (delete_eq_player_id (user_id u)) ;;
         setState (fun prev =>
           {| isQueued := false; isMatched := false; gameId := None; opponent := None;
              estimatedWaitTime := estimatedWaitTime prev |}))
        (fun error => throw error)
  end.

(** The caller's rows and the others'. *)
Definition rows_of (uid : string) (w : world) : list queue_row :=
  filter (fun r => String.eqb (player_id r) uid) (matchmaking_queue (db w)).

Definition rows_of_others (uid : string) (w : world) : list queue_row :=
  filter (fun r => negb (String.eqb (player_id r) uid)) (matchmaking_queue (db w)).

(** A queue with two rows of one player and one of another, for examples. *)
Definition alice : User := {| user_id := "alice" |}.

Definition busy_world : world :=
  {| db := {| matchmaking_queue :=
                [ {| row_id := 0; player_id := "alice"; game_mode := spellbee; skill_level := 1 |};
                  {| row_id := 1; player_id := "bob"; game_mode := spellbee; skill_level := 1 |};
                  {| row_id := 2; player_id := "alice"; game_mode := comprehension; skill_level := 1 |} ];
              next_id := 3; unique_player_mode := false |};
     auth_uid := Some "alice"%string; sent := []; network := []; channels := [] |}.

(** The same queue, reached by no request. *)
Definition offline_world : world :=
  {| db := db busy_world; auth_uid := auth_uid busy_world; sent := [];
     network := [dropped; dropped]; channels := [] |}.

(** The same queue, the first request delivered and the second lost. *)
Definition failing_world : world :=
  {| db := db busy_world; auth_uid := auth_uid busy_world; sent := [];
     network := [delivered; dropped]; channels := [] |}.

(** The queue of the first migration, under the unique constraint, with
    one spelling row of alice; the first request lost and the second
    delivered. *)
Definition flaky_unique_world : world :=
  {| db := {| matchmaking_queue :=
                [ {| row_id := 0; player_id := "alice"; game_mode := spellbee; skill_level := 1 |};
                  {| row_id := 1; player_id := "bob"; game_mode := spellbee; skill_level := 1 |} ];
              next_id := 2; unique_player_mode := true |};
     auth_uid := Some "alice"%string; sent := []; network := [dropped; delivered];
     channels := [] |}.

(** A queue under the unique constraint, with one row of each player. *)
Definition unique_world : world :=
  {| db := {| matchmaking_queue :=
                [ {| row_id := 0; player_id := "alice"; game_mode := spellbee; skill_level := 1 |};
                  {| row_id := 1; player_id := "bob"; game_mode := spellbee; skill_level := 1 |} ];
              next_id := 2; unique_player_mode := true |};
     auth_uid := Some "alice"%string; sent := []; network := []; channels := [] |}.

Definition joined : store :=
  fst (joinQueue (Some alice) comprehension (initialState, busy_world)).

End Matchmaking.

(* ------------------------------------------------------------------ *)
(** * aiService.ts: the chat helper                                    *)
(* ------------------------------------------------------------------ *)

Module Json.
Import Js.

(** What [response.json()] yields. *)
Unset Elimination Schemes.
Inductive json : Type :=
| JNull
| JBool (b : bool)
| JNum (q : Q)
| JStr (s : string)
| JArr (items : list json)
| JObj (fields : list (string * json)).
Set Elimination Schemes.

(** A JavaScript value read out of such data: a piece of it, or
    [undefined] ([None]). *)
Definition jsval : Type := option json.

Definition truthy_json (v : jsval) : bool :=
  match v with
  | None => false
  | Some JNull => false
  | Some (JBool b) => b
  | Some (JNum q) => negb (Qeq_bool q 0)
  | Some (JStr s) => truthy s
  | Some (JArr _) => true
  | Some (JObj _) => true
  end.

(** The member of an object under a key; of two members with the same key
    [JSON.parse] keeps the later one. *)
Fixpoint lookup (key : string) (fields : list (string * json)) : jsval :=
  match fields with
  | [] => None
  | (k, v) :: rest =>
      match lookup key rest with
      | Some v' => Some v'
      | None => if String.eqb k key then Some v else None
      end
  end.

(** [v.key] for the keys the providers read ([choices], [message],
    [content], [generations], [text], [generated_text]), which no built-in
    prototype defines: only an object can have them; reading a property of
    [null] or [undefined] throws. *)
Definition field (v : jsval) (key : string) : result jsval :=
  match v with
  | None => Throw (TypeError "Cannot read properties of undefined")
  | Some JNull => Throw (TypeError "Cannot read properties of null")
  | Some (JObj fields) => Return (lookup key fields)
  | Some _ => Return None
  end.

(** [v?.key] *)
Definition opt_field (v : jsval) (key : string) : jsval :=
  match v with
  | Some (JObj fields) => lookup key fields
  | _ => None
  end.

(** [v[0]] of a value that is neither [null] nor [undefined]. *)
Definition index0 (v : jsval) : result jsval :=
  match v with
  | None => Throw (TypeError "Cannot read properties of undefined")
  | Some JNull => Throw (TypeError "Cannot read properties of null")
  | Some (JArr items) => Return (hd_error items)
  | Some (JObj fields) => Return (lookup "0" fields)
  | Some (JStr (String c _)) => Return (Some (JStr (String c EmptyString)))
  | Some _ => Return None
  end.

(** [v.trim()]: only a string has the method. *)
Definition trim_method (v : jsval) : result string :=
  match v with
  | Some (JStr s) => Return (trim s)
  | None => Throw (TypeError "Cannot read properties of undefined")
  | Some JNull => Throw (TypeError "Cannot read properties of null")
  | Some _ => Throw (TypeError "trim is not a function")
  end.

End Json.

Module AiService.
Import Js Json.
Local Open Scope string_scope.

Definition dq : string := String (ascii_of_nat 34) EmptyString.

Declare Scope promise_scope.
Delimit Scope promise_scope with promise.

(** Sequencing of asynchronous code: an exception or a promise that
    never settles ends it. *)
Definition then_ {A B : Type} (p : promise A) (k : A -> promise B) : promise B :=
  match p with
  | Settled (Return a) => k a
  | Settled (Throw e) => Settled (Throw e)
  | Pending => Pending
  end.

(** [try { body } catch (error) { handler }] around asynchronous code. *)
Definition try_async {A : Type} (body : promise A) (handler : error -> promise A)
  : promise A :=
  match body with
  | Settled (Return a) => Settled (Return a)
  | Settled (Throw e) => handler e
  | Pending => Pending
  end.

Definition now {A : Type} (r : result A) : promise A := Settled r.

Notation "x <- m ;; k" := (then_ m (fun x => k))
  (at level 61, m at next level, right associativity) : promise_scope.

Record AIResponse : Type := {
  message : string;
  suggestions : list string;
  relatedTopics : list string
}.

Record AIProvider : Type := {
  name : string;
  url : string;
  headers : list (string * string);
  formatRequest : string -> option (list string) -> result json;
  parseResponse : json -> result (option string)
}.

(** [s.replace(/^(a|b|c)/i, '')]: the first alternative that the string
    starts with, compared without case, is cut off. *)
Definition drop (n : nat) (s : string) : string := substring n (length s - n) s.

Fixpoint strip_prefix_ci (alternatives : list string) (s : string) : string :=
  match alternatives with
  | [] => s
  | p :: rest =>
      if prefix (toLowerCase p) (toLowerCase s) then drop (length p) s
      else strip_prefix_ci rest s
  end.

Definition HuggingFace : AIProvider :=
  {| name := "HuggingFace";
     url := "https://api-inference.huggingface.co/models/microsoft/DialoGPT-large";
     headers := [("Content-Type", "application/json")];
     formatRequest := fun message context =>
       Return (JObj
         [("inputs", JStr ("Student: " ++ message ++ String (ascii_of_nat 10) "Tutor:"));
          ("parameters", JObj
             [("max_new_tokens", JNum 150);
              ("temperature", JNum (7 # 10));
              ("return_full_text", JBool false);
              ("do_sample", JBool true)])]);
     parseResponse := fun data =>
       match data with
       | JArr items =>
           let generated_text := opt_field (hd_error items) "generated_text" in
           if truthy_json generated_text then
             bind (trim_method generated_text) (fun response =>
             let response := trim (strip_prefix_ci ["Tutor:"; "Student:"; "AI:"] response) in
             if (20 <? length response)%nat then Return (Some response)
             else Return None)
           else Return None
       | _ => Return None
       end |}.

Definition FastGPT : AIProvider :=
  {| name := "FastGPT";
     url := "https://api.openai-proxy.com/v1/chat/completions";
     headers := [("Content-Type", "application/json"); ("Authorization", "Bearer dummy-key")];
     formatRequest := fun message context =>
       Return (JObj
         [("model", JStr "gpt-3.5-turbo");
          ("messages", JArr
             [JObj [("role", JStr "system");
                    ("content", JStr "You are a helpful AI tutor. Provide educational, encouraging responses to student questions. Keep responses concise but informative.")];
              JObj [("role", JStr "user"); ("content", JStr message)]]);
          ("max_tokens", JNum 200);
          ("temperature", JNum (7 # 10))]);
     parseResponse := fun data =>
       bind (field (Some data) "choices") (fun choices =>
       if truthy_json choices then
         bind (index0 choices) (fun choice =>
         let content := opt_field (opt_field choice "message") "content" in
         if truthy_json content then
           bind (trim_method content) (fun s => Return (Some s))
         else Return None)
       else Return None) |}.

Definition EducationalAI : AIProvider :=
  {| name := "EducationalAI";
     url := "https://api.cohere.ai/v1/generate";
     headers := [("Content-Type", "application/json"); ("Authorization", "Bearer dummy-key")];
     formatRequest := fun message context =>
       Return (JObj
         [("model", JStr "command");
          ("prompt", JStr ("As an educational AI tutor, respond helpfully to this student question: "
                           ++ dq ++ message ++ dq
                           ++ String (ascii_of_nat 10) (String (ascii_of_nat 10) "Response:")));
          ("max_tokens", JNum 150);
          ("temperature", JNum (8 # 10));
          ("k", JNum 0);
          ("stop_sequences", JArr [JStr (String (ascii_of_nat 10) (String (ascii_of_nat 10) EmptyString))]);
          ("return_likelihoods", JStr "NONE")]);
     parseResponse := fun data =>
       bind (field (Some data) "generations") (fun generations =>
       if truthy_json generations then
         bind (index0 generations) (fun generation =>
         let text := opt_field generation "text" in
         if truthy_json text then
           bind (trim_method text) (fun response =>
           let response := trim (strip_prefix_ci ["Response:"; "AI:"; "Tutor:"] response) in
           if (20 <? length response)%nat then Return (Some response)
           else Return None)
         else Return None)
       else Return None) |}.

(** [this.providers] *)
Definition providers : list AIProvider := [HuggingFace; FastGPT; EducationalAI].

(** ** The network as [callProvider] meets it *)

Inductive body_outcome : Type :=
| body_json (data : json)
| body_invalid
| body_stalls.

Record response : Type := {
  ok : bool;
  status : nat;
  statusText : string;
  body : body_outcome
}.

(** What becomes of a request that nobody aborts: the response headers
    arrive after [at_ms] milliseconds, the request fails after [at_ms]
    milliseconds, or nothing ever happens. *)
Inductive fetch_behaviour : Type :=
| responds (at_ms : N) (r : response)
| fails (at_ms : N) (e : error)
| hangs.

(** A network answers a POST of a body to a URL. *)
Definition network : Type := string -> json -> fetch_behaviour.

(** [setTimeout(() => controller.abort(), 10000)] *)
Definition abort_delay : N := 10000.

(** [await fetch(url, { ..., signal })] with the abort timer armed at
    [delay]: what has not settled when the timer fires is rejected with an
    [AbortError]. *)
Definition fetch (delay : N) (b : fetch_behaviour) : promise response :=
  match b with
  | responds t r => if (t <? delay)%N then Settled (Return r) else Settled (Throw AbortError)
  | fails t e => if (t <? delay)%N then Settled (Throw e) else Settled (Throw AbortError)
  | hangs => Settled (Throw AbortError)
  end.

(** [await response.json()]; it runs after [clearTimeout(timeoutId)], so
    nothing ends the wait for a body that never completes. *)
Definition response_json (r : response) : promise json :=
  match body r with
  | body_json data => Settled (Return data)
  | body_invalid => Settled (Throw SyntaxError)
  | body_stalls => Pending
  end.

(** [result && result.length > 10 && !result.includes('Sorry, I could not generate')] *)
Definition valid (result : option string) : bool :=
  match result with
  | None => false
  | Some s => truthy s && (10 <? length s)%nat
              && negb (includes s "Sorry, I could not generate")
  end.

Definition callProvider (net : network) (provider : AIProvider)
    (userMessage : string) (context : option (list string)) : promise (option string) :=
  try_async
    (requestBody <- now (formatRequest provider userMessage context) ;;
     response <- fetch abort_delay (net (url provider) requestBody) ;;
     _ <- now (if negb (ok response)
               then Throw (Error ("HTTP " ++ toString (status response) ++ ": "
                                  ++ statusText response))
               else Return tt) ;;
     data <- response_json response ;;
     result <- now (parseResponse provider data) ;;
     if valid result then now (Return result) else now (Return None))%promise
    (fun error =>
       if String.eqb (Js.name error) "AbortError" then now (Return None)
       else now (Return None)).

(** A call that gives [generateResponse] nothing to return: it settled
    with [null], with an empty string, or with an exception. *)
Definition gives_nothing (p : promise (option string)) : bool :=
  match p with
  | Settled (Return (Some response)) => negb (truthy response)
  | Settled (Return None) => true
  | Settled (Throw _) => true
  | Pending => false
  end.

(** ** The local responder *)

Record LocalResponse : Type := { local_message : string; isSpecific : bool }.

(** [\w] *)
Definition is_word (c : ascii) : bool :=
  let n := nat_of_ascii c in
  ((48 <=? n) && (n <=? 57) || (65 <=? n) && (n <=? 90)
   || (97 <=? n) && (n <=? 122) || (n =? 95))%nat.

Fixpoint take_while (p : ascii -> bool) (s : string) : string :=
  match s with
  | EmptyString => EmptyString
  | String c s' => if p c then String c (take_while p s') else EmptyString
  end.

(** [s.match(/lit([\w\s]+)[\?\.]*/i)[1]]: the leftmost place where [lit]
    stands, in any case, before at least one word or space character; the
    group is the longest run of such characters there. *)
Fixpoint match_group (lit s : string) : option string :=
  let here :=
    if prefix (toLowerCase lit) (toLowerCase s) then
      match take_while (fun c => is_word c || is_space c) (drop (length lit) s) with
      | EmptyString => None
      | g => Some g
      end
    else None in
  match here with
  | Some g => Some g
  | None =>
      match s with
      | EmptyString => None
      | String _ s' => match_group lit s'
      end
  end.

Fixpoint first_match (patterns : list string) (message : string) : option string :=
  match patterns with
  | [] => None
  | lit :: rest =>
      match match_group lit message with
      | Some g => Some (trim g)
      | None => first_match rest message
      end
  end.

Definition extractTopicFromQuestion (message : string) : option string :=
  first_match ["what is "; "what are "; "how do "; "why does "; "explain "] message.

Definition getIntelligentResponse (userMessage : string) (context : option (list string))
  : LocalResponse :=
  let message := toLowerCase userMessage in
  if includes message "2 + 2" || includes message "2+2" then
    {| local_message := "2 + 2 equals 4! This is a basic addition problem. Would you like me to explain how addition works or help you with more math problems?"; isSpecific := true |}
  else if includes message "solve" && (includes message "x" || includes message "equation") then
    {| local_message := "I'd be happy to help you solve equations! To solve equations, we need to isolate the variable (usually x) by performing the same operations on both sides. Can you share the specific equation you're working on?"; isSpecific := true |}
  else if includes message "photosynthesis" then
    {| local_message := "Photosynthesis is the process by which plants use sunlight, water, and carbon dioxide to create glucose (sugar) and oxygen. The basic equation is: 6CO₂ + 6H₂O + light energy → C₆H₁₂O₆ + 6O₂. Would you like me to explain any specific part of this process?"; isSpecific := true |}
  else if includes message "gravity" then
    {| local_message := "Gravity is a fundamental force that attracts objects with mass toward each other. On Earth, gravity pulls objects toward the center at about 9.8 m/s². This is why things fall down! What specific aspect of gravity would you like to explore?"; isSpecific := true |}
  else if includes message "world war" && (includes message "1" || includes message "2" || includes message "i" || includes message "ii") then
    {| local_message := "The World Wars were major global conflicts of the 20th century. World War I (1914-1918) was called 'The Great War,' while World War II (1939-1945) was the deadliest conflict in human history. Which specific aspects would you like to learn about?"; isSpecific := true |}
  else if includes message "essay" && (includes message "write" || includes message "how") then
    {| local_message := "Writing a good essay involves several key steps: 1) Understanding the prompt, 2) Brainstorming and research, 3) Creating an outline, 4) Writing with clear introduction, body, and conclusion, 5) Revising and editing. What type of essay are you working on?"; isSpecific := true |}
  else if includes message "study" && (includes message "better" || includes message "improve" || includes message "tips") then
    {| local_message := "Here are proven study techniques: 1) Active recall (testing yourself), 2) Spaced repetition (reviewing over time), 3) Pomodoro Technique (25-min focused sessions), 4) Teaching others, 5) Creating mind maps. Which subjects are you studying?"; isSpecific := true |}
  else if includes message "algebra" && (includes message "what" || includes message "explain") then
    {| local_message := "Algebra is a branch of mathematics that uses letters (variables) to represent unknown numbers. For example, in '2x + 5 = 15', we solve for x. Algebra helps us solve real-world problems and is the foundation for advanced math. What algebra concept would you like help with?"; isSpecific := true |}
  else if includes message "homework" || includes message "assignment" then
    {| local_message := "I'm here to help you understand your homework! While I can't do it for you, I can explain concepts, walk through examples, and help you develop problem-solving strategies. What subject is your homework in, and what specific topic are you working on?"; isSpecific := true |}
  else
    let unspecific := {| local_message := EmptyString; isSpecific := false |} in
    if includes message "what is" || includes message "what are" || includes message "how do" || includes message "why does" then
      match extractTopicFromQuestion message with
      | Some topic =>
          if truthy topic then
            {| local_message := ("Great question about " ++ topic ++ "! I'd love to help you understand this concept better. To give you the most helpful explanation, could you tell me what specific aspect of " ++ topic ++ " you'd like me to focus on? Are you looking for a basic definition, examples, or how it applies to your studies?"); isSpecific := true |}
          else unspecific
      | None => unspecific
      end
    else unspecific.

Definition generateSuggestions (userMessage : string) : list string :=
  let message := toLowerCase userMessage in
  if includes message "math" then ["Show me examples"; "Practice problems"; "Explain the concept"; "Related formulas"]
  else if includes message "science" then ["Show experiments"; "Explain theories"; "Real-world applications"; "Related concepts"]
  else if includes message "history" then ["Key dates"; "Important figures"; "Cause and effect"; "Timeline"]
  else ["Tell me more"; "Give examples"; "Explain simply"; "Practice questions"].

Definition generateRelatedTopics (userMessage : string) : list string :=
  let message := toLowerCase userMessage in
  if includes message "math" || includes message "algebra" then ["Geometry"; "Calculus"; "Statistics"; "Trigonometry"]
  else if includes message "science" || includes message "physics" then ["Chemistry"; "Biology"; "Earth Science"; "Astronomy"]
  else if includes message "history" then ["Geography"; "Political Science"; "Economics"; "Sociology"]
  else ["Study Skills"; "Critical Thinking"; "Research Methods"; "Academic Writing"].

(** [arr[Math.floor(Math.random() * arr.length)]] *)
Definition pick (r : draw) (arr : list string) : string :=
  nth (r (List.length arr)) arr EmptyString.

Definition getSimulatedResponse (r : draw) (userMessage : string) : AIResponse :=
  let message := toLowerCase userMessage in
  if includes message "math" || includes message "mathematics" || includes message "algebra" || includes message "calculus" || includes message "geometry" || includes message "equation" || includes message "solve" then
    let mathResponses :=
      [ "Mathematics is a fascinating subject! I'd be happy to help you with any math topics. Whether you're working on algebra, geometry, calculus, or basic arithmetic, I can provide explanations, examples, and practice problems. What specific area of math would you like to explore?";
      "Great question about math! Mathematics is all about problem-solving and logical thinking. I can help you understand concepts step-by-step, provide practice problems, and show you real-world applications. What math topic are you currently studying?";
      "I love helping with mathematics! Math builds critical thinking skills that are useful in many areas of life. From basic operations to advanced calculus, I can break down complex concepts into understandable parts. What mathematical concept would you like to explore?" ] in
    {| message := pick r mathResponses;
       suggestions := ["Show me algebra examples"; "Explain geometry basics"; "Help with calculus"; "Practice arithmetic problems"];
       relatedTopics := ["Algebra"; "Geometry"; "Calculus"; "Statistics"] |}
  else if includes message "science" || includes message "physics" || includes message "chemistry" || includes message "biology" || includes message "experiment" || includes message "theory" then
    let scienceResponses :=
      [ "Science is all around us! I can help you understand concepts in physics, chemistry, biology, and earth science. From basic principles to complex theories, I'll break things down into easy-to-understand explanations. What scientific topic interests you most?";
      "Excellent question about science! Science helps us understand how the world works through observation and experimentation. I can explain scientific concepts, discuss real-world applications, and help you understand the scientific method. What area of science would you like to explore?";
      "I'm excited to help with science! Whether it's understanding chemical reactions, exploring physics principles, or learning about living organisms, science is fascinating. I can provide clear explanations and interesting examples. What scientific concept are you curious about?" ] in
    {| message := pick r scienceResponses;
       suggestions := ["Explain physics concepts"; "Chemistry basics"; "Biology fundamentals"; "Scientific method"];
       relatedTopics := ["Physics"; "Chemistry"; "Biology"; "Earth Science"] |}
  else if includes message "history" || includes message "historical" || includes message "war" || includes message "ancient" || includes message "civilization" then
    let historyResponses :=
      [ "History helps us understand how we got to where we are today! I can discuss world history, specific time periods, historical figures, and important events. What period or aspect of history would you like to learn about?";
      "Great interest in history! Learning about the past helps us understand the present and make better decisions for the future. I can explore different civilizations, historical events, and influential people throughout time. What historical topic interests you?";
      "I'd love to help with history! From ancient civilizations to modern times, history is full of fascinating stories and important lessons. I can discuss causes and effects, analyze historical events, and explore how the past shapes our world today. What would you like to explore?" ] in
    {| message := pick r historyResponses;
       suggestions := ["World War II"; "Ancient civilizations"; "American history"; "Modern history"];
       relatedTopics := ["World History"; "American History"; "Ancient History"; "Modern History"] |}
  else if includes message "english" || includes message "literature" || includes message "writing" || includes message "essay" || includes message "grammar" || includes message "read" then
    let englishResponses :=
      [ "English and literature open up worlds of creativity and communication! I can help with grammar, writing techniques, literary analysis, reading comprehension, and more. Are you working on a specific writing project or studying particular literature?";
      "Wonderful question about English! Language and literature are powerful tools for expression and understanding. I can assist with essay writing, poetry analysis, grammar rules, and reading strategies. What aspect of English would you like to work on?";
      "I'm here to help with English! From creative writing to literary analysis, grammar to vocabulary, English skills are essential for effective communication. I can provide writing tips, help with analysis, and explain language concepts clearly. What would you like to focus on?" ] in
    {| message := pick r englishResponses;
       suggestions := ["Grammar help"; "Essay writing tips"; "Poetry analysis"; "Reading strategies"];
       relatedTopics := ["Grammar"; "Creative Writing"; "Literature Analysis"; "Poetry"] |}
  else if includes message "study" || includes message "learn" || includes message "tips" || includes message "help" || includes message "how" || includes message "prepare" then
    let studyResponses :=
      [ "Great question about studying! Effective learning involves several strategies: active recall, spaced repetition, breaking information into chunks, and connecting new knowledge to what you already know. I can help you develop a personalized study plan. What subject are you studying, and what challenges are you facing?";
      "I'm excited to help you improve your study skills! Good study habits include setting clear goals, creating a distraction-free environment, taking regular breaks, and using various learning techniques. What specific study challenges would you like to work on?";
      "Excellent question about learning! Everyone learns differently, so it's important to find techniques that work best for you. I can help with time management, note-taking strategies, memory techniques, and test preparation. What aspect of studying would you like to improve?" ] in
    {| message := pick r studyResponses;
       suggestions := ["Study schedule tips"; "Memory techniques"; "Note-taking strategies"; "Test preparation"];
       relatedTopics := ["Study Techniques"; "Memory"; "Time Management"; "Test Prep"] |}
  else if includes message "hello" || includes message "hi" || includes message "hey" || includes message "start" || (length message <? 10)%nat then
    let greetingResponses :=
      [ "Hello! I'm your AI study assistant, and I'm excited to help you learn! I can assist with a wide range of subjects including mathematics, science, history, English, and study techniques. What would you like to explore today?";
      "Hi there! Welcome to your personal AI tutor! I'm here to help you understand concepts, practice problems, and develop effective study strategies. Whether you need help with homework or want to learn something new, I'm ready to assist. What subject interests you?";
      "Hey! Great to meet you! I'm your educational AI assistant, ready to help you learn and grow. From explaining complex concepts to providing study tips, I'm here to support your learning journey. What would you like to learn about today?" ] in
    {| message := pick r greetingResponses;
       suggestions := ["Help with math problems"; "Explain science concepts"; "Study tips and strategies"; "Writing and grammar help"];
       relatedTopics := ["Mathematics"; "Science"; "History"; "English"; "Study Skills"] |}
  else if includes message "explain" || includes message "what is" || includes message "define" || includes message "meaning" then
    let explanationResponses :=
      [ ("I'd be happy to explain that concept! To give you the best explanation, could you tell me more specifically what you'd like me to explain about " ++ dq ++ userMessage ++ dq ++ "? I can break it down step by step and provide examples.");
      ("Great question! I can definitely help explain that. Let me know what specific aspect of " ++ dq ++ userMessage ++ dq ++ " you'd like me to focus on, and I'll provide a clear, detailed explanation with examples.");
      ("Excellent inquiry! I love helping students understand new concepts. For " ++ dq ++ userMessage ++ dq ++ ", I can provide definitions, examples, and practical applications. What level of detail would you like me to go into?") ] in
    {| message := pick r explanationResponses;
       suggestions := ["Give me examples"; "Explain it simply"; "Show me step by step"; "Real world applications"];
       relatedTopics := ["Concepts"; "Examples"; "Applications"; "Understanding"] |}
  else
    let specificResponses :=
      [ ("That's an interesting question about " ++ dq ++ userMessage ++ dq ++ "! I'm here to help you learn and understand various academic topics. Let me provide some guidance on this topic. What specific aspect would you like me to focus on?");
      ("Great question! I can see you're asking about " ++ dq ++ userMessage ++ dq ++ ". I'd be happy to help you understand this better. Would you like me to explain the concept, provide examples, or discuss how it applies to your studies?");
      ("I appreciate your curiosity about " ++ dq ++ userMessage ++ dq ++ "! As your AI study assistant, I can help break this down into understandable parts. What would be most helpful - a basic explanation, detailed analysis, or practical examples?");
      ("Interesting topic! For " ++ dq ++ userMessage ++ dq ++ ", I can provide explanations, examples, and study strategies. What specific information are you looking for, or what's challenging you about this topic?") ] in
    {| message := pick r specificResponses;
       suggestions := ["Explain the basics"; "Give me examples"; "Study tips for this topic"; "Related concepts"];
       relatedTopics := ["Study Skills"; "Academic Subjects"; "Learning Strategies"; "Understanding"] |}.

(** The loop of [generateResponse] over the providers from index [i] on;
    [fallback] is what follows the loop. *)
Fixpoint try_providers (net : nat -> network) (ps : list AIProvider) (i : nat)
    (userMessage : string) (context : option (list string))
    (fallback : promise AIResponse) : promise AIResponse :=
  match ps with
  | [] => fallback
  | provider :: rest =>
      let continue := try_providers net rest (S i) userMessage context fallback in
      match callProvider (net i) provider userMessage context with
      | Pending => Pending
      | Settled (Return (Some response)) =>
          if truthy response then
            now (Return {| message := response;
                           suggestions := generateSuggestions userMessage;
                           relatedTopics := generateRelatedTopics userMessage |})
          else continue
      | Settled (Return None) => continue
      | Settled (Throw error) => continue
      end
  end.

(** [generateResponse(userMessage, context)] of a service with the given
    providers; [net i] is the network as the call to provider [i] finds
    it, [r] the draw of [Math.random()]. *)
Definition generateResponse (ps : list AIProvider) (net : nat -> network) (r : draw)
    (userMessage : string) (context : option (list string)) : promise AIResponse :=
  let localResponse := getIntelligentResponse userMessage context in
  if isSpecific localResponse then
    now (Return {| message := local_message localResponse;
                   suggestions := generateSuggestions userMessage;
                   relatedTopics := generateRelatedTopics userMessage |})
  else
    try_providers net ps 0 userMessage context
      (now (Return (getSimulatedResponse r userMessage))).

(** ** Examples *)

(** A network on which the first provider never answers, the second
    refuses the key and the third answers. *)
Definition third_answers : nat -> network :=
  fun i _ _ =>
    match i with
    | 0 => hangs
    | 1 => responds 310 {| ok := false; status := 401; statusText := "Unauthorized";
                           body := body_json (JObj [("error", JStr "invalid api key")]) |}
    | _ => responds 840 {| ok := true; status := 200; statusText := "OK";
                           body := body_json (JObj [("generations", JArr
                             [JObj [("text", JStr " Response: Volcanoes are openings in the crust of a planet. ")]])]) |}
    end%nat.

(** A network on which every provider sends its headers at once, with a
    success status, and then never completes the body. *)
Definition stalled : network :=
  fun _ _ => responds 120 {| ok := true; status := 200; statusText := "OK";
                             body := body_stalls |}.

End AiService.

(* ------------------------------------------------------------------ *)
(** * React components: handlers over a render's snapshot             *)
(* ------------------------------------------------------------------ *)

(** A handler or effect of a function component closes over the state of
    the render that created it ([c] below) and queues new values with the
    setters; what it queues is the state of the next render.  The store of
    such code is the pending state together with the calls made to the
    component's callback prop, oldest first. *)
Module React.
Import Js.

Section Component.
Variables (State Call : Type).

Definition store : Type := (State * list Call)%type.

Definition set (f : State -> State) : eff store unit :=
  modify (fun p : store => (f (fst p), snd p)).

Definition call (x : Call) : eff store unit :=
  modify (fun p : store => (fst p, snd p ++ [x])).

Record outcome : Type := {
  next : State;
  calls : list Call;
  thrown : option error
}.

(** Running a handler created by the render of [c]. *)
Definition run (h : eff store unit) (c : State) : outcome :=
  let '(p, r) := h (c, []) in
  {| next := fst p; calls := snd p;
     thrown := match r with Return _ => None | Throw e => Some e end |}.

End Component.

End React.

(* ------------------------------------------------------------------ *)
(** * ComprehensionBattle.tsx                                          *)
(* ------------------------------------------------------------------ *)

Module ComprehensionBattle.
Import Js React.
Local Open Scope nat_scope.
Local Open Scope eff_scope.

Record Question : Type := {
  id : string;
  question : string;
  options : list string;
  correctAnswer : number
}.

Inductive Phase : Type := loading | reading | questions_phase | finished.

Definition Phase_eqb (a b : Phase) : bool :=
  match a, b with
  | loading, loading | reading, reading
  | questions_phase, questions_phase | finished, finished => true
  | _, _ => false
  end.

(** The [useState] cells of the component (the passage text apart, which
    only the reading view shows). *)
Record state : Type := {
  questions : list Question;
  currentQuestion : nat;
  selectedAnswer : string;
  answers : array;
  timeLeft : nat;
  gamePhase : Phase;
  readingTimeLeft : nat;
  score : nat
}.

Definition initial : state :=
  {| questions := []; currentQuestion := 0; selectedAnswer := EmptyString;
     answers := []; timeLeft := 300; gamePhase := loading;
     readingTimeLeft := 120; score := 0 |}.

(** The call [onGameEnd(score, totalQuestions)]. *)
Definition Call : Type := (nat * nat)%type.

Definition handler : Type := eff (store state Call) unit.

Definition setQuestions (v : list Question) : handler :=
  set (fun s => {| questions := v; currentQuestion := currentQuestion s;
    selectedAnswer := selectedAnswer s; answers := answers s; timeLeft := timeLeft s;
    gamePhase := gamePhase s; readingTimeLeft := readingTimeLeft s; score := score s |}).

Definition setCurrentQuestion (v : nat) : handler :=
  set (fun s => {| questions := questions s; currentQuestion := v;
    selectedAnswer := selectedAnswer s; answers := answers s; timeLeft := timeLeft s;
    gamePhase := gamePhase s; readingTimeLeft := readingTimeLeft s; score := score s |}).

Definition setSelectedAnswer (v : string) : handler :=
  set (fun s => {| questions := questions s; currentQuestion := currentQuestion s;
    selectedAnswer := v; answers := answers s; timeLeft := timeLeft s;
    gamePhase := gamePhase s; readingTimeLeft := readingTimeLeft s; score := score s |}).

Definition setAnswers (v : array) : handler :=
  set (fun s => {| questions := questions s; currentQuestion := currentQuestion s;
    selectedAnswer := selectedAnswer s; answers := v; timeLeft := timeLeft s;
    gamePhase := gamePhase s; readingTimeLeft := readingTimeLeft s; score := score s |}).

Definition setTimeLeft (v : nat) : handler :=
  set (fun s => {| questions := questions s; currentQuestion := currentQuestion s;
    selectedAnswer := selectedAnswer s; answers := answers s; timeLeft := v;
    gamePhase := gamePhase s; readingTimeLeft := readingTimeLeft s; score := score s |}).

Definition setGamePhase (v : Phase) : handler :=
  set (fun s => {| questions := questions s; currentQuestion := currentQuestion s;
    selectedAnswer := selectedAnswer s; answers := answers s; timeLeft := timeLeft s;
    gamePhase := v; readingTimeLeft := readingTimeLeft s; score := score s |}).

Definition setReadingTimeLeft (v : nat) : handler :=
  set (fun s => {| questions := questions s; currentQuestion := currentQuestion s;
    selectedAnswer := selectedAnswer s; answers := answers s; timeLeft := timeLeft s;
    gamePhase := gamePhase s; readingTimeLeft := v; score := score s |}).

Definition setScore (v : nat) : handler :=
  set (fun s => {| questions := questions s; currentQuestion := currentQuestion s;
    selectedAnswer := selectedAnswer s; answers := answers s; timeLeft := timeLeft s;
    gamePhase := gamePhase s; readingTimeLeft := readingTimeLeft s; score := v |}).

Definition onGameEnd (finalScore total : nat) : handler :=
  call (State := state) (finalScore, total).

Definition fallbackQuestions : list Question :=
  [ {| id := "1"; question := "Who proposed the famous test to measure machine intelligence?";
       options := ["Isaac Newton"%string; "Alan Turing"%string; "Albert Einstein"%string; "Charles Darwin"%string]; correctAnswer := Num 1 |};
    {| id := "2"; question := "What does machine learning enable computers to do?";
       options := ["Only follow pre-programmed instructions"%string; "Learn from data without explicit programming"%string; "Replace all human workers"%string; "Think exactly like humans"%string]; correctAnswer := Num 1 |};
    {| id := "3"; question := "According to the passage, what is deep learning inspired by?";
       options := ["Computer circuits"%string; "The human brain"%string; "Ocean waves"%string; "Mathematical equations"%string]; correctAnswer := Num 1 |};
    {| id := "4"; question := "What are some concerns mentioned about AI advancement?";
       options := ["Only technical limitations"%string; "Ethics, job displacement, and human-machine interaction"%string; "Only cost considerations"%string; "Only speed of development"%string]; correctAnswer := Num 1 |};
    {| id := "5"; question := "When did early AI research begin according to the passage?";
       options := ["1940s"%string; "1950s"%string; "1960s"%string; "1970s"%string]; correctAnswer := Num 1 |} ].

Definition loadFallbackContent : handler :=
  setQuestions fallbackQuestions ;;
  setAnswers (Array_fill (List.length fallbackQuestions) null) ;;
  setGamePhase reading.

(** A row of [comprehension_questions] as [useContent] hands it over. *)
Record ComprehensionQuestion : Type := {
  row_id : string;
  question_text : string;
  option_a : string;
  option_b : string;
  option_c : string;
  option_d : string;
  correct_answer : Z;
  explanation : option string
}.

(** [randomPassage.questions.map(q => ({ ... }))] *)
Definition formatQuestion (q : ComprehensionQuestion) : Question :=
  {| id := row_id q;
     question := question_text q;
     options := [option_a q; option_b q; option_c q; option_d q];
     correctAnswer := Num (correct_answer q) |}.

Definition formatQuestions (rows : list ComprehensionQuestion) : list Question :=
  map formatQuestion rows.

(** What [loadContent] does once [getRandomPassage] has answered:
    [formatted] is [Some] of the passage's questions in the component's
    format, or [None] when there is no passage or the call failed. *)
Definition loadContent (formatted : option (list Question)) : handler :=
  match formatted with
  | Some formattedQuestions =>
      setQuestions formattedQuestions ;;
      setAnswers (Array_fill (List.length formattedQuestions) null) ;;
      setGamePhase reading
  | None => loadFallbackContent
  end.

(** The final answers of [finishGame]. *)
Definition finalAnswers (c : state) : array :=
  if truthy (selectedAnswer c) then
    literal (spread (slice (answers c) 0 (currentQuestion c))
             ++ [VNum (parseInt (selectedAnswer c))]
             ++ spread (slice_from (answers c) (currentQuestion c + 1)))
  else answers c.

Definition finishGame (c : state) : handler :=
  finalScore <- lift (reduce (fun (score : nat) answer index =>
      match nth_error (questions c) index with
      | None => Throw (TypeError "Cannot read properties of undefined")
      | Some q => Return (if strict_eq answer (VNum (correctAnswer q))
                          then score + 1 else score)
      end) (finalAnswers c) 0) ;;
  setScore finalScore ;;
  setGamePhase finished ;;
  onGameEnd finalScore (List.length (questions c)).

(** The reading-phase timer effect of the render of [c]; the first branch
    is the timer it arms, firing a second later. *)
Definition readingTimer (c : state) : handler :=
  if Phase_eqb (gamePhase c) reading && (0 <? readingTimeLeft c) then
    setReadingTimeLeft (readingTimeLeft c - 1)
  else if Phase_eqb (gamePhase c) reading && (readingTimeLeft c =? 0) then
    setGamePhase questions_phase
  else ret tt.

(** The questions-phase timer effect. *)
Definition questionsTimer (c : state) : handler :=
  if Phase_eqb (gamePhase c) questions_phase && (0 <? timeLeft c) then
    setTimeLeft (timeLeft c - 1)
  else if Phase_eqb (gamePhase c) questions_phase && (timeLeft c =? 0) then
    finishGame c
  else ret tt.

Definition handleAnswerSelect (value : string) : handler :=
  setSelectedAnswer value.

Definition handleNextQuestion (c : state) : handler :=
  let answerIndex := parseInt (selectedAnswer c) in
  let newAnswers :=
    assign (literal (spread (answers c))) (currentQuestion c) (VNum answerIndex) in
  setAnswers newAnswers ;;
  setSelectedAnswer EmptyString ;;
  if currentQuestion c <? List.length (questions c) - 1 then
    setCurrentQuestion (currentQuestion c + 1)
  else finishGame c.

Definition startQuestions : handler := setGamePhase questions_phase.

(** The Previous button:
    [onClick={() => setCurrentQuestion(Math.max(0, currentQuestion - 1))}] *)
Definition handlePrevious (c : state) : handler :=
  setCurrentQuestion (Nat.max 0 (currentQuestion c - 1)).

(** ** The views *)

Inductive view : Type := reading_view | finished_view | question_view.

(** Which view the render of [c] returns.  The question view reads
    [questions[currentQuestion].question]: it throws when there is no such
    question. *)
Definition render (c : state) : result view :=
  match gamePhase c with
  | reading => Return reading_view
  | finished => Return finished_view
  | _ =>
      match nth_error (questions c) (currentQuestion c) with
      | Some _ => Return question_view
      | None => Throw (TypeError "Cannot read properties of undefined")
      end
  end.

(** ** The component as a transition system *)

Inductive event : Type :=
| content_loaded (formatted : option (list Question))
| reading_tick
| questions_tick
| click_start
| select (value : string)
| click_next
| click_previous.

Definition shows (c : state) (v : view) : bool :=
  match render c, v with
  | Return reading_view, reading_view
  | Return finished_view, finished_view
  | Return question_view, question_view => true
  | _, _ => false
  end.

(** The radio group offers [index.toString()] for every option of the
    current question. *)
Definition offered (c : state) (value : string) : bool :=
  match nth_error (questions c) (currentQuestion c) with
  | Some q => existsb (fun index => String.eqb value (toString index))
                      (List.seq 0 (List.length (options q)))
  | None => false
  end.

(** Whether the render of [c] returned a view.  React runs the effects
    of a render, and keeps its timers and handlers, only when it did: a
    render that throws takes the component off the page (there is no error
    boundary around it). *)
Definition mounted (c : state) : bool :=
  match render c with
  | Return _ => true
  | Throw _ => false
  end.

(** Whether the event can happen after the render of [c]: the render must
    have returned, and a button must be shown and not [disabled]. *)
Definition enabled (c : state) (e : event) : bool :=
  mounted c &&
  match e with
  | content_loaded _ => true
  | reading_tick => true
  | questions_tick => true
  | click_start => shows c reading_view
  | select value => shows c question_view && offered c value
  | click_next => shows c question_view && truthy (selectedAnswer c)
  | click_previous => shows c question_view && negb (currentQuestion c =? 0)
  end.

Definition handle (c : state) (e : event) : handler :=
  match e with
  | content_loaded formatted => loadContent formatted
  | reading_tick => readingTimer c
  | questions_tick => questionsTimer c
  | click_start => startQuestions
  | select value => handleAnswerSelect value
  | click_next => handleNextQuestion c
  | click_previous => handlePrevious c
  end.

Definition step (c : state) (e : event) : outcome state Call := run (handle c e) c.

(** The events driven by the countdown or by the user. *)
Definition timer_or_user (e : event) : bool :=
  match e with
  | content_loaded _ => false
  | _ => true
  end.

(** The states after a sequence of events from [c], when each event can
    happen where it stands. *)
Fixpoint after (c : state) (es : list event) : option state :=
  match es with
  | [] => Some c
  | e :: rest => if enabled c e then after (next (step c e)) rest else None
  end.

Definition reachable (s : state) : Prop := exists es, after initial es = Some s.

Definition rank (p : Phase) : nat :=
  match p with
  | loading => 0
  | reading => 1
  | questions_phase => 2
  | finished => 3
  end.

(** ** The score in the words of the specification: the number of
    recorded answers whose option index is the correct-answer index of the
    question at the same position. *)

Definition is_correct (slot : option value) (q : Question) : bool :=
  match slot, correctAnswer q with
  | Some (VNum (Num i)), Num k => (i =? k)%Z
  | _, _ => false
  end.

Fixpoint count_correct (recorded : array) (qs : list Question) : nat :=
  match recorded, qs with
  | slot :: recorded', q :: qs' =>
      (if is_correct slot q then 1 else 0) + count_correct recorded' qs'
  | _, _ => 0
  end.

(** A state in which the game can be played: one answer slot per question,
    and a current question. *)
Definition well_formed (c : state) : Prop :=
  List.length (answers c) = List.length (questions c) /\
  currentQuestion c < List.length (questions c).

(** ** Examples *)

Definition two_questions : list Question := firstn 2 fallbackQuestions.

(** The first question that migration 20250920000000 stores: the planets
    are Eight, option b, and the key is 2. *)
Definition solar_system_row : ComprehensionQuestion :=
  {| row_id := "q1";
     question_text := "How many planets are in our solar system?";
     option_a := "Seven"; option_b := "Eight"; option_c := "Nine"; option_d := "Ten";
     correct_answer := 2;
     explanation := Some "There are eight planets in our solar system as stated in the passage."%string |}.

(** The state that the handlers give once the fallback content is
    loaded. *)
Definition just_loaded : state := next (step initial (content_loaded None)).

Definition last_question : state :=
  {| questions := two_questions; currentQuestion := 1; selectedAnswer := "1";
     answers := [Some (VNum (Num 0)); Some null]; timeLeft := 12;
     gamePhase := questions_phase; readingTimeLeft := 0; score := 0 |}.

End ComprehensionBattle.

(* ------------------------------------------------------------------ *)
(** * SpellingBee.tsx                                                  *)
(* ------------------------------------------------------------------ *)

Module SpellingBee.
Import Js React.
Local Open Scope nat_scope.
Local Open Scope eff_scope.

Record SpellingWord : Type := {
  id : string;
  word : string;
  definition : string;
  difficulty_level : string;
  pronunciation : string;
  subject_category : string
}.

Definition sampleWords : list SpellingWord :=
  [ {| id := "1"; word := "necessary"; definition := "Required to be done, achieved, or present; needed; essential.";
       difficulty_level := "medium"; pronunciation := "NES-uh-ser-ee"; subject_category := "spelling" |};
    {| id := "2"; word := "mathematics"; definition := "The abstract science of number, quantity, and space.";
       difficulty_level := "easy"; pronunciation := "math-uh-MAT-iks"; subject_category := "spelling" |};
    {| id := "3"; word := "rhythm"; definition := "A strong, regular, repeated pattern of movement or sound.";
       difficulty_level := "hard"; pronunciation := "RITH-uhm"; subject_category := "spelling" |};
    {| id := "4"; word := "entrepreneur"; definition := "A person who organizes and operates a business, taking on greater than normal financial risks.";
       difficulty_level := "hard"; pronunciation := "ahn-truh-pruh-NUR"; subject_category := "spelling" |};
    {| id := "5"; word := "beautiful"; definition := "Pleasing the senses or mind aesthetically.";
       difficulty_level := "easy"; pronunciation := "BYOO-tuh-fuhl"; subject_category := "spelling" |};
    {| id := "6"; word := "definitely"; definition := "Without doubt; certainly.";
       difficulty_level := "medium"; pronunciation := "DEF-uh-nit-lee"; subject_category := "spelling" |};
    {| id := "7"; word := "conscientious"; definition := "Wishing to do what is right, especially to do one's work or duty well and thoroughly.";
       difficulty_level := "hard"; pronunciation := "kon-shee-EN-shuhs"; subject_category := "spelling" |};
    {| id := "8"; word := "immediately"; definition := "At once; instantly.";
       difficulty_level := "medium"; pronunciation := "ih-MEE-dee-it-lee"; subject_category := "spelling" |} ].

Inductive Phase : Type := playing | finished.

Definition Phase_eqb (a b : Phase) : bool :=
  match a, b with
  | playing, playing | finished, finished => true
  | _, _ => false
  end.

Record state : Type := {
  words : list SpellingWord;
  loading : bool;
  currentWord : nat;
  userInput : string;
  answers : array;
  timeLeft : nat;
  gamePhase : Phase;
  score : nat;
  showHint : bool
}.

Definition initial : state :=
  {| words := []; loading := true; currentWord := 0; userInput := EmptyString;
     answers := []; timeLeft := 180; gamePhase := playing; score := 0;
     showHint := false |}.

(** The call [onGameEnd(score, totalWords)]. *)
Definition Call : Type := (nat * nat)%type.

Definition handler : Type := eff (store state Call) unit.

Definition setWords (v : list SpellingWord) : handler :=
  set (fun s => {| words := v; loading := loading s; currentWord := currentWord s;
    userInput := userInput s; answers := answers s; timeLeft := timeLeft s;
    gamePhase := gamePhase s; score := score s; showHint := showHint s |}).

Definition setLoading (v : bool) : handler :=
  set (fun s => {| words := words s; loading := v; currentWord := currentWord s;
    userInput := userInput s; answers := answers s; timeLeft := timeLeft s;
    gamePhase := gamePhase s; score := score s; showHint := showHint s |}).

Definition setCurrentWord (v : nat) : handler :=
  set (fun s => {| words := words s; loading := loading s; currentWord := v;
    userInput := userInput s; answers := answers s; timeLeft := timeLeft s;
    gamePhase := gamePhase s; score := score s; showHint := showHint s |}).

Definition setUserInput (v : string) : handler :=
  set (fun s => {| words := words s; loading := loading s; currentWord := currentWord s;
    userInput := v; answers := answers s; timeLeft := timeLeft s;
    gamePhase := gamePhase s; score := score s; showHint := showHint s |}).

Definition setAnswers (v : array) : handler :=
  set (fun s => {| words := words s; loading := loading s; currentWord := currentWord s;
    userInput := userInput s; answers := v; timeLeft := timeLeft s;
    gamePhase := gamePhase s; score := score s; showHint := showHint s |}).

Definition setTimeLeft (v : nat) : handler :=
  set (fun s => {| words := words s; loading := loading s; currentWord := currentWord s;
    userInput := userInput s; answers := answers s; timeLeft := v;
    gamePhase := gamePhase s; score := score s; showHint := showHint s |}).

Definition setGamePhase (v : Phase) : handler :=
  set (fun s => {| words := words s; loading := loading s; currentWord := currentWord s;
    userInput := userInput s; answers := answers s; timeLeft := timeLeft s;
    gamePhase := v; score := score s; showHint := showHint s |}).

Definition setScore (v : nat) : handler :=
  set (fun s => {| words := words s; loading := loading s; currentWord := currentWord s;
    userInput := userInput s; answers := answers s; timeLeft := timeLeft s;
    gamePhase := gamePhase s; score := v; showHint := showHint s |}).

Definition setShowHint (v : bool) : handler :=
  set (fun s => {| words := words s; loading := loading s; currentWord := currentWord s;
    userInput := userInput s; answers := answers s; timeLeft := timeLeft s;
    gamePhase := gamePhase s; score := score s; showHint := v |}).

Definition onGameEnd (finalScore total : nat) : handler :=
  call (State := state) (finalScore, total).

(** ** The hook [useContent], as the spelling bee uses it *)

(** What [await query] resolves to: [{ data, error }]. *)
Record query_result : Type := {
  data : option (list SpellingWord);
  error : option Js.error
}.

(** [fetchSpellingWords]: the rows, or [[]] when the query failed. *)
Definition fetchSpellingWords (answer : query_result) : result (list SpellingWord) :=
  try_catch
    (bind (match error answer with Some e => Throw e | None => Return tt end) (fun _ =>
     Return (match data answer with Some rows => rows | None => [] end)))
    (fun _ => Return []).

(** [getRandomSpellingWords(count)]; [shuffle] stands for
    [[...availableWords].sort(() => Math.random() - 0.5)]. *)
Definition getRandomSpellingWords (shuffle : list SpellingWord -> list SpellingWord)
    (count : nat) (answer : query_result) : result (list SpellingWord) :=
  try_catch
    (bind (fetchSpellingWords answer) (fun availableWords =>
     if List.length availableWords =? 0 then Return []
     else
       let shuffled := shuffle availableWords in
       Return (firstn (Nat.min count (List.length shuffled)) shuffled)))
    (fun _ => Return []).

(** What [loadWords] does once [getRandomSpellingWords(8)] has settled. *)
Definition loadWords (settled : result (list SpellingWord)) : handler :=
  match settled with
  | Return spellingWords =>
      setWords spellingWords ;;
      setAnswers (Array_fill (List.length spellingWords) (VStr EmptyString)) ;;
      setLoading false
  | Throw error =>
      setWords sampleWords ;;
      setAnswers (Array_fill (List.length sampleWords) (VStr EmptyString)) ;;
      setLoading false
  end.

(** The final answers of [finishGame]. *)
Definition finalAnswers (c : state) : array :=
  if truthy (userInput c) then
    literal (spread (slice (answers c) 0 (currentWord c))
             ++ [VStr (trim (userInput c))]
             ++ spread (slice_from (answers c) (currentWord c + 1)))
  else answers c.

Definition finishGame (c : state) : handler :=
  finalScore <- lift (reduce (fun (score : nat) answer index =>
      bind (toLowerCase_method answer) (fun lowered =>
      match nth_error (words c) index with
      | None => Throw (TypeError "Cannot read properties of undefined")
      | Some w => Return (if String.eqb lowered (toLowerCase (word w))
                          then score + 1 else score)
      end)) (finalAnswers c) 0) ;;
  setScore finalScore ;;
  setGamePhase finished ;;
  onGameEnd finalScore (List.length (words c)).

(** The game timer effect of the render of [c]; the first branch is the
    timer it arms, firing a second later. *)
Definition gameTimer (c : state) : handler :=
  if Phase_eqb (gamePhase c) playing && (0 <? timeLeft c) then
    setTimeLeft (timeLeft c - 1)
  else if Phase_eqb (gamePhase c) playing && (timeLeft c =? 0) then
    finishGame c
  else ret tt.

Definition handleInputChange (value : string) : handler := setUserInput value.

Definition handleNextWord (c : state) : handler :=
  let newAnswers :=
    assign (literal (spread (answers c))) (currentWord c) (VStr (trim (userInput c))) in
  setAnswers newAnswers ;;
  setUserInput EmptyString ;;
  setShowHint false ;;
  if currentWord c <? List.length (words c) - 1 then
    setCurrentWord (currentWord c + 1)
  else finishGame c.

Definition handleSkipWord (c : state) : handler :=
  let newAnswers :=
    assign (literal (spread (answers c))) (currentWord c) (VStr EmptyString) in
  setAnswers newAnswers ;;
  setUserInput EmptyString ;;
  setShowHint false ;;
  if currentWord c <? List.length (words c) - 1 then
    setCurrentWord (currentWord c + 1)
  else finishGame c.

Definition toggleHint (c : state) : handler := setShowHint (negb (showHint c)).

Definition getDifficultyColor (difficulty : string) : string :=
  if String.eqb difficulty "easy" then "bg-green-500"
  else if String.eqb difficulty "medium" then "bg-yellow-500"
  else if String.eqb difficulty "hard" then "bg-red-500"
  else "bg-gray-500".

(** [secs.toString().padStart(2, '0')] *)
Definition padStart2 (s : string) : string :=
  match s with
  | String c EmptyString => String "0" (String c EmptyString)
  | EmptyString => "00"
  | _ => s
  end.

(** [formatTime(seconds)] of a non-negative whole number of seconds. *)
Definition formatTime (seconds : nat) : string :=
  let mins := seconds / 60 in
  let secs := seconds mod 60 in
  (toString mins ++ ":" ++ padStart2 (toString secs))%string.

(** [Math.round((score / total) * 100)], the accuracy shown at the end;
    with no words at all it is [NaN]. *)
Definition percentage (R : rounding) (score total : nat) : option Z :=
  if total =? 0 then None
  else Some (Math_round (fmul R (fdiv R (inject_Z (Z.of_nat score))
                                        (inject_Z (Z.of_nat total))) 100%Q)).

(** ** The views *)

Inductive view : Type := loading_view | finished_view | word_view.

(** The word view reads [words[currentWord].difficulty_level]: it throws
    when there is no such word. *)
Definition render (c : state) : result view :=
  if loading c then Return loading_view
  else
    match gamePhase c with
    | finished => Return finished_view
    | playing =>
        match nth_error (words c) (currentWord c) with
        | Some _ => Return word_view
        | None => Throw (TypeError "Cannot read properties of undefined")
        end
    end.

(** ** The component as a transition system *)

Inductive event : Type :=
| words_loaded (settled : result (list SpellingWord))
| tick
| input (value : string)
| press_enter
| click_next
| click_skip
| click_hint.

Definition shows_word (c : state) : bool :=
  match render c with
  | Return word_view => true
  | _ => false
  end.

(** Whether the render of [c] returned a view: only then do its effects
    run and its handlers stay on the page. *)
Definition mounted (c : state) : bool :=
  match render c with
  | Return _ => true
  | Throw _ => false
  end.

(** Whether the event can happen after the render of [c].  The Next button
    is [disabled={!userInput.trim()}]; the Enter key asks for the same. *)
Definition enabled (c : state) (e : event) : bool :=
  mounted c &&
  match e with
  | words_loaded _ => true
  | tick => true
  | input _ => shows_word c
  | press_enter => shows_word c && truthy (trim (userInput c))
  | click_next => shows_word c && truthy (trim (userInput c))
  | click_skip => shows_word c
  | click_hint => shows_word c
  end.

Definition handle (c : state) (e : event) : handler :=
  match e with
  | words_loaded settled => loadWords settled
  | tick => gameTimer c
  | input value => handleInputChange value
  | press_enter => handleNextWord c
  | click_next => handleNextWord c
  | click_skip => handleSkipWord c
  | click_hint => toggleHint c
  end.

Definition step (c : state) (e : event) : outcome state Call := run (handle c e) c.

Definition timer_or_user (e : event) : bool :=
  match e with
  | words_loaded _ => false
  | _ => true
  end.

Fixpoint after (c : state) (es : list event) : option state :=
  match es with
  | [] => Some c
  | e :: rest => if enabled c e then after (next (step c e)) rest else None
  end.

Definition reachable (s : state) : Prop := exists es, after initial es = Some s.

Definition rank (p : Phase) : nat :=
  match p with
  | playing => 0
  | finished => 1
  end.

(** ** The score in the words of the specification, and as it is: the
    number of recorded answers that are the stored word, compared exactly
    or after lower-casing both. *)

Definition is_exactly (slot : option value) (w : SpellingWord) : bool :=
  match slot with
  | Some (VStr s) => String.eqb s (word w)
  | _ => false
  end.

Definition is_ignoring_case (slot : option value) (w : SpellingWord) : bool :=
  match slot with
  | Some (VStr s) => String.eqb (toLowerCase s) (toLowerCase (word w))
  | _ => false
  end.

Fixpoint count_matches (same : option value -> SpellingWord -> bool)
    (recorded : array) (ws : list SpellingWord) : nat :=
  match recorded, ws with
  | slot :: recorded', w :: ws' =>
      (if same slot w then 1 else 0) + count_matches same recorded' ws'
  | _, _ => 0
  end.

Definition count_exact : array -> list SpellingWord -> nat := count_matches is_exactly.

Definition count_ignoring_case : array -> list SpellingWord -> nat :=
  count_matches is_ignoring_case.

(** A slot that holds a string. *)
Definition holds_string (slot : option value) : bool :=
  match slot with
  | Some (VStr _) => true
  | _ => false
  end.

(** A state in which the game can be played: one string per word in the
    answers, and a current word. *)
Definition well_formed (c : state) : Prop :=
  List.length (answers c) = List.length (words c) /\
  forallb holds_string (answers c) = true /\
  currentWord c < List.length (words c).

(** ** Examples *)

Definition one_word : list SpellingWord := firstn 1 sampleWords.

(** Load one word, the word [necessary], and type it with a capital. *)
Definition typed_with_capital : list event :=
  [words_loaded (Return one_word); input "Necessary"].

Definition last_word : state :=
  {| words := firstn 2 sampleWords; loading := false; currentWord := 1;
     userInput := " Mathematics "; answers := [Some (VStr "necesary"); Some (VStr EmptyString)];
     timeLeft := 40; gamePhase := playing; score := 0; showHint := true |}.

End SpellingBee.

(* ------------------------------------------------------------------ *)
(** * GameRouter.tsx: the component                                    *)
(* ------------------------------------------------------------------ *)

Module GameRouterView.
Import Js React GameRouter.
Local Open Scope eff_scope.

Record GameResults : Type := { score : nat; total : nat; mode : GameMode }.

Record state : Type := {
  gameCompleted : bool;
  gameResults : option GameResults
}.

Definition initial : state := {| gameCompleted := false; gameResults := None |}.

(** The call [onGameEnd(score, totalQuestions, gameMode)]. *)
Definition Call : Type := (nat * nat * GameMode)%type.

Definition handler : Type := eff (store state Call) unit.

Definition setGameCompleted (v : bool) : handler :=
  set (fun s => {| gameCompleted := v; gameResults := gameResults s |}).

Definition setGameResults (v : option GameResults) : handler :=
  set (fun s => {| gameCompleted := gameCompleted s; gameResults := v |}).

Definition onGameEnd (finalScore totalQuestions : nat) (gameMode : GameMode) : handler :=
  call (State := state) (finalScore, totalQuestions, gameMode).

(** [handleGameEnd(score, total)] of a router for [gameMode]. *)
Definition handleGameEnd (gameMode : GameMode) (finalScore totalQuestions : nat) : handler :=
  setGameResults (Some {| score := finalScore; total := totalQuestions; mode := gameMode |}) ;;
  setGameCompleted true ;;
  onGameEnd finalScore totalQuestions gameMode.

Definition handlePlayAgain : handler :=
  setGameCompleted false ;;
  setGameResults None.

Inductive view : Type := results_view (percentage expGained : option Z) | game_view (gameMode : GameMode).

(** What the router shows: the results once a game is completed, with the
    accuracy and the experience gained, and the game otherwise. *)
Definition render (R : rounding) (gameMode : GameMode) (c : state) : view :=
  match gameCompleted c, gameResults c with
  | true, Some results =>
      results_view
        (SpellingBee.percentage R (score results) (total results))
        (calculateExpGained R (Z.of_nat (score results)) (Z.of_nat (total results)) gameMode)
  | _, _ => game_view gameMode
  end.

End GameRouterView.

(* ================================================================== *)
(** * Properties                                                       *)
(* ================================================================== *)

Unset Implicit Arguments.

(* ------------------------------------------------------------------ *)
(** ** Experience gained                                               *)
(* ------------------------------------------------------------------ *)

Module GameRouterFacts.
Import Js GameRouter.

Section Rounding.
Variable R : rounding.

Lemma rnd_Z_le (z : Z) (x : Q) :
  (Z.abs z <= 2 ^ 53)%Z -> inject_Z z <= x -> inject_Z z <= R x.
Proof.
  intros Hz Hx. rewrite <- (rnd_int R z Hz). now apply rnd_mono.
Qed.

Lemma rnd_le_Z (z : Z) (x : Q) :
  (Z.abs z <= 2 ^ 53)%Z -> x <= inject_Z z -> R x <= inject_Z z.
Proof.
  intros Hz Hx. rewrite <- (rnd_int R z Hz). now apply rnd_mono.
Qed.

Lemma ratio_bounds (score total : Z) :
  (0 <= score <= total)%Z -> (0 < total)%Z ->
  0 <= inject_Z score / inject_Z total <= 1.
Proof.
  intros [H0 H1] Ht.
  assert (Hq : 0 < inject_Z total) by (change 0 with (inject_Z 0); now rewrite <- Zlt_Qlt).
  split.
  - apply Qle_shift_div_l; [exact Hq|]. rewrite Qmult_0_l.
    change 0 with (inject_Z 0). now rewrite <- Zle_Qle.
  - apply Qle_shift_div_r; [exact Hq|]. rewrite Qmult_1_l. now rewrite <- Zle_Qle.
Qed.

(** The three roundings of the formula keep a value between the integer
    bounds of its exact counterpart. *)
Lemma rounded_sum_bounds (base : Z) (p : Q) :
  (0 <= base <= 1000)%Z -> 0 <= p <= 1 ->
  inject_Z base <= fadd R (inject_Z base) (fmul R 15 p) <= inject_Z (base + 15).
Proof.
  intros Hb [Hp0 Hp1]. unfold fadd, fmul.
  assert (Hb0 : 0 <= R (15 * p)).
  { apply (rnd_Z_le 0); [simpl; lia|].
    change (inject_Z 0) with 0. apply Qmult_le_0_compat; [discriminate|exact Hp0]. }
  assert (Hb1 : R (15 * p) <= 15).
  { apply (rnd_le_Z 15); [simpl; lia|].
    change (inject_Z 15) with (15 * 1). apply Qmult_le_l; [reflexivity|exact Hp1]. }
  split.
  - apply rnd_Z_le; [lia|].
    rewrite <- (Qplus_0_r (inject_Z base)) at 1. now apply Qplus_le_r.
  - apply rnd_le_Z; [lia|].
    rewrite inject_Z_plus. now apply Qplus_le_r.
Qed.

Lemma Math_round_bounds (lo hi : Z) (x : Q) :
  inject_Z lo <= x <= inject_Z hi -> (lo <= Math_round x <= hi)%Z.
Proof.
  intros [Hlo Hhi]. unfold Math_round. split.
  - rewrite <- (Qfloor_Z lo). apply Qfloor_resp_le.
    rewrite <- (Qplus_0_r (inject_Z lo)). apply Qplus_le_compat; [exact Hlo|discriminate].
  - assert (H : (Qfloor (x + (1 # 2)) < hi + 1)%Z); [|lia].
    rewrite Zlt_Qlt. eapply Qle_lt_trans; [apply Qfloor_le|].
    eapply Qle_lt_trans; [apply Qplus_le_l; exact Hhi|].
    rewrite inject_Z_plus. apply Qplus_lt_r. reflexivity.
Qed.

Lemma Math_round_mono (x y : Q) : x <= y -> (Math_round x <= Math_round y)%Z.
Proof.
  intros H. unfold Math_round. apply Qfloor_resp_le. now apply Qplus_le_l.
Qed.

End Rounding.

(** C9.  For a score between 0 and a positive total, [calculateExpGained]
    returns an integer between 10 and 25 in comprehension mode and between
    15 and 30 in spellbee mode, whatever the rounding of the three
    floating-point operations. *)
Theorem calculateExpGained_range (R : rounding) (score total : Z) (gameMode : GameMode) :
  (0 <= score <= total)%Z -> (0 < total)%Z ->
  exists e : Z,
    calculateExpGained R score total gameMode = Some e /\
    match gameMode with
    | comprehension => (10 <= e <= 25)%Z
    | spellbee => (15 <= e <= 30)%Z
    end.
Proof.
  intros Hs Ht. unfold calculateExpGained.
  destruct (Z.eqb_spec total 0) as [->|_]; [lia|].
  eexists; split; [reflexivity|].
  assert (Hp : 0 <= fdiv R (inject_Z score) (inject_Z total) <= 1).
  { destruct (ratio_bounds score total Hs Ht) as [H0 H1]. unfold fdiv. split.
    - apply (rnd_Z_le R 0); [simpl; lia|exact H0].
    - apply (rnd_le_Z R 1); [simpl; lia|exact H1]. }
  destruct gameMode; simpl GameMode_eqb; cbv iota.
  - apply Math_round_bounds. apply (rounded_sum_bounds R 10); [lia|exact Hp].
  - apply Math_round_bounds. apply (rounded_sum_bounds R 15); [lia|exact Hp].
Qed.

Lemma calculateExpGained_range_witness :
  exists e : Z,
    calculateExpGained exact 3 5 comprehension = Some e /\ (10 <= e <= 25)%Z.
Proof.
  apply (calculateExpGained_range exact 3 5 comprehension); lia.
Defined.

(** C3.  [calculateExpGained] is monotonic in the score percentage: for
    one game mode and one positive total, a result whose ratio
    [score / total] is not larger earns no more experience, whatever the
    rounding of the floating-point operations. *)
Theorem calculateExpGained_monotone (R : rounding) (score1 score2 total : Z)
    (gameMode : GameMode) :
  (0 < total)%Z ->
  inject_Z score1 / inject_Z total <= inject_Z score2 / inject_Z total ->
  exists e1 e2 : Z,
    calculateExpGained R score1 total gameMode = Some e1 /\
    calculateExpGained R score2 total gameMode = Some e2 /\
    (e1 <= e2)%Z.
Proof.
  intros Ht Hle. unfold calculateExpGained.
  destruct (Z.eqb_spec total 0) as [->|_]; [lia|].
  do 2 eexists. split; [reflexivity|]. split; [reflexivity|].
  apply Math_round_mono. unfold fadd, fmul, fdiv.
  apply rnd_mono. apply Qplus_le_r. apply rnd_mono.
  destruct gameMode; simpl GameMode_eqb; cbv iota;
    (apply Qmult_le_l; [reflexivity|]); now apply rnd_mono.
Qed.

Lemma calculateExpGained_monotone_witness :
  exists e1 e2 : Z,
    calculateExpGained exact 2 8 spellbee = Some e1 /\
    calculateExpGained exact 5 8 spellbee = Some e2 /\
    (e1 <= e2)%Z.
Proof.
  apply (calculateExpGained_monotone exact 2 5 8 spellbee); [lia|].
  vm_compute. discriminate.
Defined.

End GameRouterFacts.

(* ------------------------------------------------------------------ *)
(** ** Rank                                                            *)
(* ------------------------------------------------------------------ *)

Module RankFacts.
Import Profiles.
Local Open Scope Z_scope.

Lemma rank_formula (e : Z) :
  Sql.GREATEST (Some 1) (Sql.add (Sql.div (Some e) (Some 100)) (Some 1))
  = Some (Z.max 1 (Z.quot e 100 + 1)).
Proof. reflexivity. Qed.

(** Truncating and flooring division give the same rank: they differ only
    below zero, where the rank is 1 either way. *)
Lemma rank_quot_div (e : Z) : Z.max 1 (Z.quot e 100 + 1) = Z.max 1 (e / 100 + 1).
Proof.
  destruct (Z.le_gt_cases 0 e) as [H|H].
  - rewrite Z.quot_div_nonneg; lia.
  - pose proof (Z.quot_le_mono e 0 100) as Hq. rewrite Z.quot_0_l in Hq by lia.
    assert (e / 100 < 0) by (apply Z.div_lt_upper_bound; lia).
    lia.
Qed.

(** C4.  The rank that the [update_user_rank] trigger writes for a row
    whose experience is [e] is [max(1, e div 100 + 1)], with the integer
    division of SQL (truncating or flooring, the maximum with 1 hides the
    difference); so of two rows the one with no less experience gets no
    lower a rank. *)
Theorem update_user_rank_monotone (NEW1 NEW2 : profile) (exp1 exp2 : Z) :
  exp NEW1 = Some exp1 -> exp NEW2 = Some exp2 -> exp1 <= exp2 ->
  exists r1 r2 : Z,
    rank (update_user_rank NEW1) = Some r1 /\
    rank (update_user_rank NEW2) = Some r2 /\
    r1 = Z.max 1 (exp1 / 100 + 1) /\
    r2 = Z.max 1 (exp2 / 100 + 1) /\
    r1 <= r2.
Proof.
  intros H1 H2 Hle. unfold update_user_rank; cbn [rank exp]. rewrite H1, H2, !rank_formula.
  do 2 eexists. split; [reflexivity|]. split; [reflexivity|].
  split; [apply rank_quot_div|]. split; [apply rank_quot_div|].
  pose proof (Z.quot_le_mono exp1 exp2 100). lia.
Qed.

Lemma update_user_rank_monotone_witness :
  exists r1 r2 : Z,
    rank (update_user_rank {| id := Js.empty; exp := Some 250; rank := None |}) = Some r1 /\
    rank (update_user_rank {| id := Js.empty; exp := Some 1999; rank := Some 7 |}) = Some r2 /\
    r1 = Z.max 1 (250 / 100 + 1) /\
    r2 = Z.max 1 (1999 / 100 + 1) /\
    r1 <= r2.
Proof.
  apply (update_user_rank_monotone _ _ 250 1999); [reflexivity|reflexivity|lia].
Defined.

End RankFacts.

(* ------------------------------------------------------------------ *)
(** ** Matchmaking queue                                               *)
(* ------------------------------------------------------------------ *)

Module MatchmakingFacts.
Import Js GameRouter Matchmaking.

Lemma filter_filter {A : Type} (f g : A -> bool) (l : list A) :
  filter f (filter g l) = filter (fun x => f x && g x) l.
Proof.
  induction l as [|x l IH]; simpl; [reflexivity|].
  destruct (g x); simpl; rewrite ?andb_false_r, ?andb_true_r.
  - destruct (f x); simpl; now rewrite IH.
  - exact IH.
Qed.

Lemma filter_none {A : Type} (f : A -> bool) (l : list A) :
  (forall x, In x l -> f x = false) -> filter f l = [].
Proof.
  induction l as [|x l IH]; simpl; intros H; [reflexivity|].
  rewrite (H x (or_introl eq_refl)). apply IH. intros y Hy. apply H. now right.
Qed.

(** What a delete of the caller's rows by the caller leaves of the table. *)
Lemma delete_own (uid : string) (d : database) :
  matchmaking_queue (fst (execute (Some uid) (delete_eq_player_id uid) d))
  = filter (fun r => negb (String.eqb (player_id r) uid)) (matchmaking_queue d).
Proof.
  simpl. apply filter_ext. intros r. unfold own_row.
  rewrite (String.eqb_sym uid). now rewrite andb_diag.
Qed.

Lemma no_own_rows_after_delete (uid : string) (q : list queue_row) :
  filter (fun r => String.eqb (player_id r) uid)
         (filter (fun r => negb (String.eqb (player_id r) uid)) q) = [].
Proof.
  rewrite filter_filter. apply filter_none. intros r _. apply andb_negb_r.
Qed.

Lemma others_after_delete (uid : string) (q : list queue_row) :
  filter (fun r => negb (String.eqb (player_id r) uid))
         (filter (fun r => negb (String.eqb (player_id r) uid)) q)
  = filter (fun r => negb (String.eqb (player_id r) uid)) q.
Proof.
  rewrite filter_filter. apply filter_ext. intros r. apply andb_diag.
Qed.

(** A delete by the caller, whatever the session, never touches a row of
    another player. *)
Lemma others_after_any_delete (auth : option string) (uid : string) (d : database) :
  filter (fun r => negb (String.eqb (player_id r) uid))
         (matchmaking_queue (fst (execute auth (delete_eq_player_id uid) d)))
  = filter (fun r => negb (String.eqb (player_id r) uid)) (matchmaking_queue d).
Proof.
  simpl. rewrite filter_filter. apply filter_ext. intros r.
  destruct (String.eqb (player_id r) uid); reflexivity.
Qed.

Lemma execute_delete_no_error (auth : option string) (uid : string) (d : database) :
  execute auth (delete_eq_player_id uid) d
  = (fst (execute auth (delete_eq_player_id uid) d), None).
Proof. reflexivity. Qed.

(** What one delete request of the caller's rows does to the world. *)
Lemma send_delete (uid : string) (w : world) :
  let w' := fst (send (delete_eq_player_id uid) w) in
  sent w' = sent w ++ [delete_eq_player_id uid] /\
  network w' = tl (network w) /\
  auth_uid w' = auth_uid w /\
  channels w' = channels w /\
  unique_player_mode (db w') = unique_player_mode (db w) /\
  rows_of_others uid w' = rows_of_others uid w /\
  (auth_uid w = Some uid -> hd delivered (network w) <> dropped -> rows_of uid w' = []).
Proof.
  unfold send, rows_of, rows_of_others.
  destruct (network w) as [|[| |] fs];
    try rewrite (execute_delete_no_error (auth_uid w) uid (db w));
    cbn -[execute]; repeat (split; [reflexivity|]).
  1, 2, 4: rewrite others_after_any_delete; split; [reflexivity|];
    intros Hauth _; rewrite Hauth, delete_own; apply no_own_rows_after_delete.
  intros _ H. now elim H.
Qed.

(** When the delete reaches the database: for an authenticated caller and
    any queue, [leaveQueue] returns without throwing after sending exactly
    one request, the delete filtered by [player_id = user.id]; none of the
    caller's rows is left, and the rows of every other player are exactly
    what they were. *)
Theorem leaveQueue_removes_own_rows_only (u : User) (st : MatchmakingState) (w : world) :
  auth_uid w = Some (user_id u) ->
  hd delivered (network w) <> dropped ->
  exists st' w',
    leaveQueue (Some u) (st, w) = ((st', w'), Return tt) /\
    sent w' = sent w ++ [delete_eq_player_id (user_id u)] /\
    rows_of (user_id u) w' = [] /\
    rows_of_others (user_id u) w' = rows_of_others (user_id u) w.
Proof.
  intros Hauth Hnet.
  destruct (send_delete (user_id u) w) as (Hsent & _ & _ & _ & _ & Hothers & Hown).
  unfold leaveQueue, catch, and_then, request_, setState, modify. cbn -[send].
  destruct (send (delete_eq_player_id (user_id u)) w) as [w1 err] eqn:E.
  cbn in *. do 2 eexists. split; [reflexivity|].
  split; [exact Hsent|]. split; [now apply Hown | exact Hothers].
Qed.

Lemma leaveQueue_removes_own_rows_only_witness :
  exists st' w',
    leaveQueue (Some alice) (initialState, busy_world) = ((st', w'), Return tt) /\
    sent w' = sent busy_world ++ [delete_eq_player_id "alice"] /\
    rows_of "alice" w' = [] /\
    rows_of_others "alice" w' = rows_of_others "alice" busy_world.
Proof.
  apply (leaveQueue_removes_own_rows_only alice initialState busy_world);
    [reflexivity | discriminate].
Defined.

(** What one insert request does to the world when the client is told
    of no error: one row for the player is appended. *)
Lemma send_insert_ok (uid : string) (mode : GameMode) (skill : Z) (w w' : world) :
  send (insert uid mode skill) w = (w', None) ->
  sent w' = sent w ++ [insert uid mode skill] /\
  channels w' = channels w /\
  exists r, matchmaking_queue (db w') = matchmaking_queue (db w) ++ [r] /\
            player_id r = uid /\ game_mode r = mode /\ skill_level r = skill.
Proof.
  unfold send.
  destruct (match network w with [] => delivered | f :: _ => f end);
    [| intros H; discriminate H | intros H; discriminate H].
  unfold execute.
  destruct (negb _); [intros H; discriminate H|].
  destruct (_ && _); [intros H; discriminate H|].
  intros H. injection H as <-. cbn.
  split; [reflexivity|]. split; [reflexivity|].
  eexists. split; [reflexivity|]. cbn. auto.
Qed.

Lemma rows_of_app (uid : string) (q : list queue_row) (r : queue_row) :
  player_id r = uid ->
  filter (fun r => String.eqb (player_id r) uid) (q ++ [r])
  = filter (fun r => String.eqb (player_id r) uid) q ++ [r] /\
  filter (fun r => negb (String.eqb (player_id r) uid)) (q ++ [r])
  = filter (fun r => negb (String.eqb (player_id r) uid)) q.
Proof.
  intros <-. rewrite !filter_app. cbn. rewrite String.eqb_refl. cbn.
  now rewrite app_nil_r.
Qed.

(** When the delete reaches the database: for an authenticated caller, a
    [joinQueue] that returns normally has sent the delete of the caller's
    rows and then one insert, and leaves the caller with exactly one row in
    the queue, for the requested game mode, however many rows the caller
    had before; the rows of the other players are untouched. *)
Theorem joinQueue_leaves_one_row (u : User) (gameMode : GameMode)
    (st st' : MatchmakingState) (w w' : world) :
  auth_uid w = Some (user_id u) ->
  hd delivered (network w) <> dropped ->
  joinQueue (Some u) gameMode (st, w) = ((st', w'), Return tt) ->
  sent w' = sent w ++ [delete_eq_player_id (user_id u); insert (user_id u) gameMode 1] /\
  (exists r, rows_of (user_id u) w' = [r] /\ game_mode r = gameMode /\ skill_level r = 1%Z) /\
  rows_of_others (user_id u) w' = rows_of_others (user_id u) w /\
  isQueued st' = true.
Proof.
  intros Hauth Hnet.
  destruct (send_delete (user_id u) w) as (Hsent & _ & _ & _ & _ & Hothers & Hown).
  specialize (Hown Hauth Hnet).
  unfold joinQueue, catch, and_then, request_, setState, monitorForMatches, modify, throw, ret.
  cbn -[send].
  destruct (send (delete_eq_player_id (user_id u)) w) as [w1 err1] eqn:E1. cbn -[send] in *.
  destruct (send (insert (user_id u) gameMode 1) w1) as [w2 [e|]] eqn:E2; cbn -[send].
  - intros H; discriminate H.
  - intros H. injection H as <- <-.
    destruct (send_insert_ok _ _ _ _ _ E2) as (Hsent2 & _ & r & Hq & Hp & Hm & Hs).
    unfold rows_of, rows_of_others in *. cbn.
    destruct (rows_of_app (user_id u) (matchmaking_queue (db w1)) r Hp) as [Hown2 Hothers2].
    rewrite Hq, Hown2, Hothers2, Hown, Hsent2, Hsent, <- app_assoc.
    split; [reflexivity|]. split; [|split; [exact Hothers|reflexivity]].
    exists r. auto.
Qed.

Lemma joinQueue_leaves_one_row_witness :
  sent (snd joined)
  = sent busy_world ++ [delete_eq_player_id "alice"; insert "alice" comprehension 1] /\
  (exists r, rows_of "alice" (snd joined) = [r] /\
             game_mode r = comprehension /\ skill_level r = 1%Z) /\
  rows_of_others "alice" (snd joined) = rows_of_others "alice" busy_world /\
  isQueued (fst joined) = true.
Proof.
  apply (joinQueue_leaves_one_row alice comprehension
           initialState (fst joined) busy_world (snd joined));
    [reflexivity | discriminate | reflexivity].
Defined.

End MatchmakingFacts.

(* ------------------------------------------------------------------ *)
(** ** The chat helper                                                 *)
(* ------------------------------------------------------------------ *)

Module AiServiceFacts.
Import Js Json AiService.

(** The handler of [callProvider] turns every exception into [null]. *)
Lemma try_async_null (body : promise (option string)) :
  try_async body
    (fun error =>
       if String.eqb (Js.name error) "AbortError" then now (Return None)
       else now (Return None))
  = match body with
    | Settled (Return a) => Settled (Return a)
    | Settled (Throw _) => Settled (Return None)
    | Pending => Pending
    end.
Proof.
  destruct body as [[a|e]|]; cbn; [reflexivity| |reflexivity].
  now destruct (String.eqb _ _).
Qed.

Lemma callProvider_never_throws (net : network) (provider : AIProvider)
    (userMessage : string) (context : option (list string)) (e : error) :
  callProvider net provider userMessage context <> Settled (Throw e).
Proof.
  unfold callProvider. rewrite try_async_null.
  destruct (then_ _ _) as [[a|e']|]; discriminate.
Qed.

(** C8.  The abort timer does not guard the whole call.  On a network
    where a provider sends its headers after 120 ms with a success status
    and never completes the body, the timer has been cleared when
    [response.json()] starts to wait: [callProvider] neither returns
    [null] nor throws, it never settles, and [generateResponse], which
    awaits it, never reaches the next provider or the canned response. *)
Theorem callProvider_never_settles_on_stalled_body :
  callProvider stalled HuggingFace "tell me about volcanoes" None = Pending /\
  generateResponse providers (fun _ => stalled) (draw_of 0) "tell me about volcanoes" None
  = Pending.
Proof.
  split.
  - unfold callProvider. rewrite try_async_null. reflexivity.
  - unfold generateResponse.
    replace (isSpecific (getIntelligentResponse "tell me about volcanoes" None))
      with false by reflexivity.
    unfold providers. cbn [try_providers].
    unfold callProvider. rewrite try_async_null. reflexivity.
Qed.

Lemma try_providers_never_throws (net : nat -> network) (ps : list AIProvider) (i : nat)
    (userMessage : string) (context : option (list string))
    (fallback : promise AIResponse) (e : error) :
  fallback <> Settled (Throw e) ->
  try_providers net ps i userMessage context fallback <> Settled (Throw e).
Proof.
  intros Hf. revert i. induction ps as [|p ps IH]; intros i; cbn; [exact Hf|].
  pose proof (callProvider_never_throws (net i) p userMessage context) as Hc.
  destruct (callProvider (net i) p userMessage context) as [[[response|]|e']|].
  - destruct (truthy response); [discriminate|apply IH].
  - apply IH.
  - apply IH.
  - discriminate.
Qed.

(** The loop passes over the providers that give nothing. *)
Lemma try_providers_skip (net : nat -> network) (ps : list AIProvider) (k i : nat)
    (userMessage : string) (context : option (list string))
    (fallback : promise AIResponse) :
  (forall j q, (j < k)%nat -> nth_error ps j = Some q ->
     gives_nothing (callProvider (net (i + j)%nat) q userMessage context) = true) ->
  try_providers net ps i userMessage context fallback
  = try_providers net (skipn k ps) (i + k) userMessage context fallback.
Proof.
  revert ps i. induction k as [|k IH]; intros ps i H.
  - now rewrite Nat.add_0_r.
  - destruct ps as [|p ps]; [reflexivity|]. cbn [skipn].
    rewrite <- Nat.add_succ_comm, <- IH.
    + pose proof (H 0%nat p (Nat.lt_0_succ k) eq_refl) as H0.
      rewrite Nat.add_0_r in H0. cbn [try_providers].
      destruct (callProvider (net i) p userMessage context) as [[[response|]|e']|];
        cbn in H0; try reflexivity; try discriminate.
      now destruct (truthy response).
    + intros j q Hj Hq. rewrite Nat.add_succ_comm. apply (H (S j)); [lia|exact Hq].
Qed.

(** C7.  [generateResponse] never settles with an exception.  When the
    local responder has no specific answer and the first [k] providers
    each give nothing (a failure turned into [null], or an invalid
    response), the result is decided by provider [k]: its response if it
    has a valid one, and, if there is no provider [k] because all have
    failed, the canned response of [getSimulatedResponse]. *)
Theorem generateResponse_falls_back (ps : list AIProvider) (net : nat -> network) (r : draw)
    (userMessage : string) (context : option (list string)) (k : nat) :
  (forall j q, (j < k)%nat -> nth_error ps j = Some q ->
     gives_nothing (callProvider (net j) q userMessage context) = true) ->
  (forall e, generateResponse ps net r userMessage context <> Settled (Throw e)) /\
  (isSpecific (getIntelligentResponse userMessage context) = false ->
   match nth_error ps k with
   | None =>
       generateResponse ps net r userMessage context
       = Settled (Return (getSimulatedResponse r userMessage))
   | Some p =>
       match callProvider (net k) p userMessage context with
       | Settled (Return (Some response)) =>
           truthy response = true ->
           generateResponse ps net r userMessage context
           = Settled (Return {| message := response;
                                suggestions := generateSuggestions userMessage;
                                relatedTopics := generateRelatedTopics userMessage |})
       | Pending => generateResponse ps net r userMessage context = Pending
       | _ => True
       end
   end).
Proof.
  intros Hk. split.
  - intros e. unfold generateResponse.
    destruct (isSpecific _); [discriminate|].
    apply try_providers_never_throws. discriminate.
  - intros Hlocal. unfold generateResponse. rewrite Hlocal.
    rewrite (try_providers_skip net ps k 0); [|exact Hk]. cbn [Nat.add].
    destruct (nth_error ps k) as [p|] eqn:Hp.
    + destruct (nth_error_split ps k Hp) as (l1 & l2 & -> & <-).
      rewrite skipn_app, skipn_all, Nat.sub_diag. cbn.
      destruct (callProvider (net (List.length l1)) p userMessage context)
        as [[[response|]|e']|]; try exact I; [|reflexivity].
      now intros ->.
    + apply nth_error_None in Hp. rewrite skipn_all2; [reflexivity|exact Hp].
Qed.

Lemma generateResponse_falls_back_witness :
  generateResponse providers third_answers (draw_of 0) "tell me about volcanoes" None
  = Settled (Return {| message := "Volcanoes are openings in the crust of a planet.";
                       suggestions := generateSuggestions "tell me about volcanoes";
                       relatedTopics := generateRelatedTopics "tell me about volcanoes" |}).
Proof.
  refine (proj2 (generateResponse_falls_back providers third_answers (draw_of 0)
                   "tell me about volcanoes" None 2 _) eq_refl eq_refl).
  intros [|[|j]] q Hj Hq;
    [injection Hq as <-; reflexivity | injection Hq as <-; reflexivity | lia].
Defined.

End AiServiceFacts.

(* ------------------------------------------------------------------ *)
(** ** Arrays                                                          *)
(* ------------------------------------------------------------------ *)

Module ArrayFacts.
Import Js.

Lemma length_spread (a : array) : List.length (spread a) = List.length a.
Proof. apply length_map. Qed.

Lemma length_literal (l : list value) : List.length (literal l) = List.length l.
Proof. apply length_map. Qed.

Lemma literal_spread_dense (a : array) :
  Forall (fun slot => slot <> None) a -> literal (spread a) = a.
Proof.
  induction 1 as [|slot a Hs _ IH]; [reflexivity|].
  cbn. unfold literal, spread in IH. rewrite IH. now destruct slot.
Qed.

Lemma skipn_cons_nth {A : Type} (l : list A) (i : nat) (x : A) :
  nth_error l i = Some x -> skipn i l = x :: skipn (S i) l.
Proof.
  revert i. induction l as [|y l IH]; intros [|i] H; try discriminate.
  - now injection H as ->.
  - apply (IH i H).
Qed.

(** Replacing slot [i] of an array, as [finishGame] writes it with two
    slices, keeps the length when the slot exists. *)
Lemma length_replace (a : array) (i : nat) (v : value) :
  (i < List.length a)%nat ->
  List.length (literal (spread (slice a 0 i) ++ [v] ++ spread (slice_from a (i + 1))))
  = List.length a.
Proof.
  intros H. unfold slice, slice_from.
  rewrite length_literal, !length_app, !length_spread, length_firstn, !length_skipn.
  cbn. lia.
Qed.

Lemma length_assign (a : array) (i : nat) (v : value) :
  (i < List.length a)%nat -> List.length (assign a i v) = List.length a.
Proof.
  revert i. induction a as [|x a IH]; intros [|i] H; cbn in *; try lia.
  rewrite IH; lia.
Qed.

(** Within the array, index assignment on a copy and the two slices of
    [finishGame] build the same array. *)
Lemma assign_as_slices (a : array) (i : nat) (v : value) :
  (i < List.length a)%nat ->
  assign (literal (spread a)) i v
  = literal (spread (slice a 0 i) ++ [v] ++ spread (slice_from a (i + 1))).
Proof.
  unfold slice, slice_from. revert i.
  induction a as [|x a IH]; intros [|i] H; cbn in *; try lia.
  - reflexivity.
  - rewrite IH by lia. rewrite Nat.sub_0_r. reflexivity.
Qed.

End ArrayFacts.

(* ------------------------------------------------------------------ *)
(** ** Comprehension battle                                            *)
(* ------------------------------------------------------------------ *)

Module ComprehensionBattleFacts.
Import Js React ComprehensionBattle ArrayFacts.
Local Open Scope nat_scope.

Lemma strict_eq_is_correct (x : value) (q : Question) :
  strict_eq x (VNum (correctAnswer q)) = is_correct (Some x) q.
Proof.
  unfold is_correct. destruct x as [| |[|i]|s], (correctAnswer q) as [|k]; reflexivity.
Qed.

(** The [reduce] of [finishGame] counts the correct answers, as long as
    every answer has its question. *)
Lemma reduce_counts (qs : list Question) (a : array) (i acc : nat) :
  i + List.length a <= List.length qs ->
  reduce_from (fun (score : nat) answer index =>
      match nth_error qs index with
      | None => Throw (TypeError "Cannot read properties of undefined")
      | Some q => Return (if strict_eq answer (VNum (correctAnswer q))
                          then score + 1 else score)
      end) a i acc
  = Return (acc + count_correct a (skipn i qs)).
Proof.
  revert i acc. induction a as [|slot a IH]; intros i acc H; cbn [reduce_from].
  - cbn. now rewrite Nat.add_0_r.
  - cbn [List.length] in H.
    destruct (nth_error qs i) as [q|] eqn:Hq;
      [|apply nth_error_None in Hq; lia].
    rewrite (skipn_cons_nth qs i q Hq). cbn [count_correct].
    destruct slot as [x|].
    + cbn [bind]. rewrite ?Hq. cbn [bind]. rewrite IH by lia.
      rewrite strict_eq_is_correct. f_equal.
      destruct (is_correct (Some x) q); lia.
    + rewrite IH by lia. reflexivity.
Qed.

Lemma length_finalAnswers (c : state) :
  List.length (answers c) = List.length (questions c) ->
  currentQuestion c < List.length (questions c) \/ selectedAnswer c = EmptyString ->
  List.length (finalAnswers c) = List.length (questions c).
Proof.
  intros Hlen H. unfold finalAnswers.
  destruct (selectedAnswer c) as [|ch s] eqn:Hs; cbn [truthy]; [exact Hlen|].
  destruct H as [H|H]; [|discriminate].
  rewrite length_replace; lia.
Qed.



(** [finishGame] leaves the question index alone, and the phase either
    as it was (when it throws) or finished. *)
Lemma finishGame_effect (c : state) (p : store state Call) :
  let p' := fst (finishGame c p) in
  currentQuestion (fst p') = currentQuestion (fst p) /\
  (gamePhase (fst p') = finished \/ gamePhase (fst p') = gamePhase (fst p)).
Proof.
  unfold finishGame, and_then, lift.
  destruct (reduce _ _ _) as [n|e]; cbn; auto.
Qed.

Lemma shows_reading (c : state) : shows c reading_view = true -> gamePhase c = reading.
Proof.
  unfold shows, render. destruct (gamePhase c); try discriminate; try reflexivity;
    destruct (nth_error _ _); discriminate.
Qed.

Lemma shows_question (c : state) :
  shows c question_view = true -> gamePhase c = loading \/ gamePhase c = questions_phase.
Proof.
  unfold shows, render. destruct (gamePhase c); try discriminate; auto.
Qed.

(** Every event driven by the countdown or by the user moves the phase
    forward or not at all; the Previous button moves one question back, and
    every other event keeps the question or moves one on. *)
Lemma step_forward_or_previous (c : state) (e : event) :
  enabled c e = true -> timer_or_user e = true ->
  let c' := next (step c e) in
  rank (gamePhase c) <= rank (gamePhase c') /\
  match e with
  | click_previous => currentQuestion c' + 1 = currentQuestion c
  | _ => currentQuestion c <= currentQuestion c' <= currentQuestion c + 1
  end.
Proof.
  intros He Hu. unfold enabled in He. apply andb_true_iff in He as [_ He].
  unfold step, run.
  destruct e; try discriminate Hu; cbn [handle] in *.
  - (* reading_tick *)
    unfold readingTimer.
    destruct (Phase_eqb (gamePhase c) reading && (0 <? readingTimeLeft c));
      [cbn; split; lia|].
    destruct (Phase_eqb (gamePhase c) reading && (readingTimeLeft c =? 0)) eqn:E;
      [|cbn; split; lia].
    apply andb_true_iff in E as [E _].
    destruct (gamePhase c) eqn:Hp; try discriminate E. cbn. rewrite ?Hp. cbn. split; lia.
  - (* questions_tick *)
    unfold questionsTimer.
    destruct (Phase_eqb (gamePhase c) questions_phase && (0 <? timeLeft c));
      [cbn; split; lia|].
    destruct (Phase_eqb (gamePhase c) questions_phase && (timeLeft c =? 0));
      [|cbn; split; lia].
    destruct (finishGame_effect c (c, [])) as [Hq [Hf|Hf]];
      destruct (finishGame c (c, [])) as [p r]; cbn in *; rewrite Hq, Hf;
      destruct (gamePhase c); cbn; split; lia.
  - (* click_start *)
    apply shows_reading in He. cbn. rewrite He. cbn. split; lia.
  - (* select *)
    cbn. split; lia.
  - (* click_next *)
    apply andb_true_iff in He. destruct He as [He _]. apply shows_question in He.
    unfold handleNextQuestion, and_then. cbn -[finishGame assign Nat.ltb Nat.sub].
    destruct (currentQuestion c <? List.length (questions c) - 1); cbn -[finishGame assign].
    + split; lia.
    + match goal with |- context [finishGame c ?p] =>
        destruct (finishGame_effect c p) as [Hq [Hf|Hf]];
        destruct (finishGame c p) as [p' r] end;
        cbn in *; rewrite Hq, Hf; destruct He as [-> | ->]; cbn; split; lia.
  - (* click_previous *)
    apply andb_true_iff in He. destruct He as [_ He].
    apply negb_true_iff, Nat.eqb_neq in He. cbn. split; lia.
Qed.

End ComprehensionBattleFacts.

(* ------------------------------------------------------------------ *)
(** ** Spelling bee                                                    *)
(* ------------------------------------------------------------------ *)

Module SpellingBeeFacts.
Import Js React SpellingBee ArrayFacts.
Local Open Scope nat_scope.

Lemma forallb_firstn {A : Type} (f : A -> bool) (n : nat) (l : list A) :
  forallb f l = true -> forallb f (firstn n l) = true.
Proof.
  revert n. induction l as [|x l IH]; intros [|n] H; cbn in *; try reflexivity.
  apply andb_true_iff in H as [-> H]. now apply IH.
Qed.

Lemma forallb_skipn {A : Type} (f : A -> bool) (n : nat) (l : list A) :
  forallb f l = true -> forallb f (skipn n l) = true.
Proof.
  revert n. induction l as [|x l IH]; intros [|n] H; cbn in *; try reflexivity; try exact H.
  apply andb_true_iff in H as [_ H]. now apply IH.
Qed.

Lemma literal_spread_strings (a : array) :
  forallb holds_string a = true -> literal (spread a) = a.
Proof.
  induction a as [|slot a IH]; cbn; intros H; [reflexivity|].
  apply andb_true_iff in H as [Hs H]. unfold literal, spread in IH. rewrite (IH H).
  now destruct slot as [[]|].
Qed.

Lemma literal_app (l1 l2 : list value) : literal (l1 ++ l2) = literal l1 ++ literal l2.
Proof. apply map_app. Qed.

Lemma finalAnswers_strings (c : state) :
  forallb holds_string (answers c) = true ->
  forallb holds_string (finalAnswers c) = true.
Proof.
  intros H. unfold finalAnswers. destruct (truthy (userInput c)); [|exact H].
  unfold slice, slice_from.
  rewrite !literal_app, !literal_spread_strings
    by (apply forallb_firstn || apply forallb_skipn; first [apply forallb_skipn; exact H | exact H]).
  rewrite !forallb_app, forallb_firstn, forallb_skipn; auto using forallb_skipn.
Qed.

Lemma spelling_length_finalAnswers (c : state) :
  List.length (answers c) = List.length (words c) ->
  currentWord c < List.length (words c) \/ userInput c = EmptyString ->
  List.length (finalAnswers c) = List.length (words c).
Proof.
  intros Hlen H. unfold finalAnswers.
  destruct (userInput c) as [|ch s] eqn:Hs; cbn [truthy]; [exact Hlen|].
  destruct H as [H|H]; [|discriminate].
  rewrite length_replace; lia.
Qed.

(** The [reduce] of [finishGame] counts the answers that are their word
    once both are in lower case, as long as every answer is a string and
    has its word. *)
Lemma spelling_reduce_counts (ws : list SpellingWord) (a : array) (i acc : nat) :
  i + List.length a <= List.length ws ->
  forallb holds_string a = true ->
  reduce_from (fun (score : nat) answer index =>
      bind (toLowerCase_method answer) (fun lowered =>
      match nth_error ws index with
      | None => Throw (TypeError "Cannot read properties of undefined")
      | Some w => Return (if String.eqb lowered (toLowerCase (word w))
                          then score + 1 else score)
      end)) a i acc
  = Return (acc + count_ignoring_case a (skipn i ws)).
Proof.
  revert i acc. induction a as [|slot a IH]; intros i acc H Hs; cbn [reduce_from].
  - cbn. now rewrite Nat.add_0_r.
  - cbn [List.length forallb] in *. apply andb_true_iff in Hs as [Hslot Hs].
    destruct (nth_error ws i) as [w|] eqn:Hw;
      [|apply nth_error_None in Hw; lia].
    rewrite (skipn_cons_nth ws i w Hw).
    destruct slot as [[| | |s]|]; try discriminate Hslot.
    cbn [bind toLowerCase_method]. rewrite ?Hw. cbn [bind]. rewrite IH by (lia || exact Hs).
    unfold count_ignoring_case. cbn [count_matches is_ignoring_case]. f_equal.
    destruct (String.eqb _ _); lia.
Qed.

(** C1.  When [finishGame] runs in a state whose answers array has one
    string per word, it does not throw, sets the phase to finished and the
    score to the number of recorded answers (the trimmed pending input
    included) that equal their word after lower-casing both, and calls
    [onGameEnd] once, with that score and the number of words. *)
Theorem finishGame_scores_ignoring_case (c : state) :
  List.length (answers c) = List.length (words c) ->
  forallb holds_string (answers c) = true ->
  currentWord c < List.length (words c) \/ userInput c = EmptyString ->
  let o := run (finishGame c) c in
  thrown o = None /\
  calls o = [(count_ignoring_case (finalAnswers c) (words c), List.length (words c))] /\
  score (next o) = count_ignoring_case (finalAnswers c) (words c) /\
  gamePhase (next o) = finished.
Proof.
  intros Hlen Hstr Hcur.
  pose proof (spelling_length_finalAnswers c Hlen Hcur) as Hfin.
  pose proof (finalAnswers_strings c Hstr) as Hfs.
  unfold run, finishGame, and_then, lift, reduce.
  rewrite spelling_reduce_counts by (exact Hfs || (rewrite Hfin; cbn; lia)).
  cbn. auto.
Qed.

Lemma finishGame_scores_ignoring_case_witness :
  let o := run (finishGame last_word) last_word in
  thrown o = None /\
  calls o = [(1, 2)] /\
  score (next o) = 1 /\
  gamePhase (next o) = finished.
Proof.
  apply (finishGame_scores_ignoring_case last_word);
    [reflexivity | reflexivity | left; cbn; lia].
Defined.

(** C1, as the specification words it, fails: one word, [necessary], typed
    as [Necessary]; the Next button ends the game with [onGameEnd(1, 1)],
    although no recorded answer is exactly the stored word. *)
Theorem finishGame_counts_inexact_match :
  exists c : state,
    after initial typed_with_capital = Some c /\
    enabled c click_next = true /\
    calls (step c click_next) = [(1, 1)] /\
    count_exact (finalAnswers c) (words c) = 0.
Proof.
  eexists. split; [reflexivity|]. repeat split.
Qed.

(** [finishGame] leaves the word index alone, and the phase either as it
    was (when it throws) or finished. *)
Lemma spelling_finishGame_effect (c : state) (p : store state Call) :
  let p' := fst (finishGame c p) in
  currentWord (fst p') = currentWord (fst p) /\
  loading (fst p') = loading (fst p) /\
  (gamePhase (fst p') = finished \/ gamePhase (fst p') = gamePhase (fst p)).
Proof.
  unfold finishGame, and_then, lift.
  destruct (reduce _ _ _) as [n|e]; cbn; auto.
Qed.

(** No event of the spelling bee moves the phase or the word index back,
    or brings the loading screen back. *)
Lemma step_forward (c : state) (e : event) :
  let c' := next (step c e) in
  rank (gamePhase c) <= rank (gamePhase c') /\
  currentWord c <= currentWord c' <= currentWord c + 1 /\
  (loading c = false -> loading c' = false).
Proof.
  unfold step, run.
  assert (Hfin : forall p : store state Call,
            currentWord (fst p) = currentWord c -> gamePhase (fst p) = gamePhase c ->
            loading (fst p) = loading c ->
            let c' := fst (fst (finishGame c p)) in
            rank (gamePhase c) <= rank (gamePhase c') /\
            currentWord c <= currentWord c' <= currentWord c + 1 /\
            (loading c = false -> loading c' = false)).
  { intros p H1 H2 H3. destruct (spelling_finishGame_effect c p) as (Hw & Hl & Hf).
    cbn zeta in *. rewrite Hw, Hl, H1, H3.
    destruct Hf as [-> | ->]; rewrite ?H2; destruct (gamePhase c); cbn; repeat split; auto; lia. }
  destruct e; cbn [handle].
  - destruct settled; cbn; repeat split; auto; lia.
  - unfold gameTimer.
    destruct (Phase_eqb (gamePhase c) playing && (0 <? timeLeft c));
      [cbn; repeat split; auto; lia|].
    destruct (Phase_eqb (gamePhase c) playing && (timeLeft c =? 0));
      [|cbn; repeat split; auto; lia].
    specialize (Hfin (c, []) eq_refl eq_refl eq_refl).
    destruct (finishGame c (c, [])) as [p r]. exact Hfin.
  - cbn. repeat split; auto; lia.
  - unfold handleNextWord, and_then. cbn -[finishGame assign Nat.ltb Nat.sub].
    destruct (currentWord c <? List.length (words c) - 1); cbn -[finishGame assign].
    + repeat split; auto; lia.
    + match goal with |- context [finishGame c ?p] =>
        specialize (Hfin p eq_refl eq_refl eq_refl);
        destruct (finishGame c p) as [p' r] end. exact Hfin.
  - unfold handleNextWord, and_then. cbn -[finishGame assign Nat.ltb Nat.sub].
    destruct (currentWord c <? List.length (words c) - 1); cbn -[finishGame assign].
    + repeat split; auto; lia.
    + match goal with |- context [finishGame c ?p] =>
        specialize (Hfin p eq_refl eq_refl eq_refl);
        destruct (finishGame c p) as [p' r] end. exact Hfin.
  - unfold handleSkipWord, and_then. cbn -[finishGame assign Nat.ltb Nat.sub].
    destruct (currentWord c <? List.length (words c) - 1); cbn -[finishGame assign].
    + repeat split; auto; lia.
    + match goal with |- context [finishGame c ?p] =>
        specialize (Hfin p eq_refl eq_refl eq_refl);
        destruct (finishGame c p) as [p' r] end. exact Hfin.
  - cbn. repeat split; auto; lia.
Qed.

End SpellingBeeFacts.

(* ------------------------------------------------------------------ *)
(** ** The flow of the two quizzes                                     *)
(* ------------------------------------------------------------------ *)

Module QuizFlowFacts.
Import React.
Local Open Scope nat_scope.

(** One step of either quiz, taken by itself.  In the comprehension battle
    every event driven by the countdown or by the user that can happen
    leaves the phase where it is or moves it forward in the order loading,
    reading, questions, finished; the Previous button moves one question
    back, and every other such event keeps the question or moves one on.
    In the spelling bee no event at all moves the phase or the word index
    back, or brings the loading screen back. *)
Theorem quiz_flow_backtracks_only_by_previous
    (c : ComprehensionBattle.state) (e : ComprehensionBattle.event)
    (s : SpellingBee.state) (f : SpellingBee.event) :
  ComprehensionBattle.enabled c e = true ->
  ComprehensionBattle.timer_or_user e = true ->
  let c' := next (ComprehensionBattle.step c e) in
  let s' := next (SpellingBee.step s f) in
  (ComprehensionBattle.rank (ComprehensionBattle.gamePhase c)
     <= ComprehensionBattle.rank (ComprehensionBattle.gamePhase c') /\
   match e with
   | ComprehensionBattle.click_previous =>
       ComprehensionBattle.currentQuestion c' + 1 = ComprehensionBattle.currentQuestion c
   | _ =>
       ComprehensionBattle.currentQuestion c <= ComprehensionBattle.currentQuestion c'
         <= ComprehensionBattle.currentQuestion c + 1
   end) /\
  (SpellingBee.rank (SpellingBee.gamePhase s) <= SpellingBee.rank (SpellingBee.gamePhase s') /\
   SpellingBee.currentWord s <= SpellingBee.currentWord s' <= SpellingBee.currentWord s + 1 /\
   (SpellingBee.loading s = false -> SpellingBee.loading s' = false)).
Proof.
  intros He Hu. split.
  - exact (ComprehensionBattleFacts.step_forward_or_previous c e He Hu).
  - exact (SpellingBeeFacts.step_forward s f).
Qed.

Lemma quiz_flow_backtracks_only_by_previous_witness :
  let c := ComprehensionBattle.last_question in
  let s := SpellingBee.last_word in
  let c' := next (ComprehensionBattle.step c ComprehensionBattle.click_next) in
  let s' := next (SpellingBee.step s SpellingBee.click_skip) in
  (ComprehensionBattle.rank (ComprehensionBattle.gamePhase c)
     <= ComprehensionBattle.rank (ComprehensionBattle.gamePhase c') /\
   ComprehensionBattle.currentQuestion c <= ComprehensionBattle.currentQuestion c'
     <= ComprehensionBattle.currentQuestion c + 1) /\
  (SpellingBee.rank (SpellingBee.gamePhase s) <= SpellingBee.rank (SpellingBee.gamePhase s') /\
   SpellingBee.currentWord s <= SpellingBee.currentWord s' <= SpellingBee.currentWord s + 1 /\
   (SpellingBee.loading s = false -> SpellingBee.loading s' = false)).
Proof.
  apply (quiz_flow_backtracks_only_by_previous
           ComprehensionBattle.last_question ComprehensionBattle.click_next
           SpellingBee.last_word SpellingBee.click_skip); reflexivity.
Defined.

(** C6.  The comprehension battle never enters its flow.  Its first
    render, in the phase loading and with no question, is due to show the
    question view, reads a field of a question that is not there, and
    throws; so none of its effects runs and none of its handlers stays on
    the page: no event can happen, the load of the content included, and
    the only state the component ever reaches is the initial one, in the
    phase loading. *)
Theorem comprehension_battle_stops_at_first_render :
  (exists msg, ComprehensionBattle.render ComprehensionBattle.initial
               = Js.Throw (Js.TypeError msg)) /\
  (forall e, ComprehensionBattle.enabled ComprehensionBattle.initial e = false) /\
  (forall s, ComprehensionBattle.reachable s ->
     s = ComprehensionBattle.initial /\
     ComprehensionBattle.gamePhase s = ComprehensionBattle.loading).
Proof.
  split; [eexists; reflexivity|]. split; [intros e; reflexivity|].
  intros s [es Hes]. destruct es as [|e rest]; cbn in Hes.
  - injection Hes as <-. split; reflexivity.
  - discriminate Hes.
Qed.

End QuizFlowFacts.

(* ------------------------------------------------------------------ *)
(** ** The chat helper: further properties                             *)
(* ------------------------------------------------------------------ *)

Module AiServiceMore.
Import Js Json AiService.
Local Open Scope string_scope.

(** What [callProvider] does with a response whose headers arrived in
    time. *)
Lemma callProvider_cases (net : network) (provider : AIProvider)
    (userMessage : string) (context : option (list string)) :
  callProvider net provider userMessage context =
  match formatRequest provider userMessage context with
  | Throw _ => Settled (Return None)
  | Return requestBody =>
      match fetch abort_delay (net (url provider) requestBody) with
      | Settled (Return response) =>
          if ok response then
            match body response with
            | body_json data =>
                match parseResponse provider data with
                | Return result => Settled (Return (if valid result then result else None))
                | Throw _ => Settled (Return None)
                end
            | body_invalid => Settled (Return None)
            | body_stalls => Pending
            end
          else Settled (Return None)
      | _ => Settled (Return None)
      end
  end.
Proof.
  unfold callProvider. rewrite AiServiceFacts.try_async_null.
  destruct (formatRequest provider userMessage context) as [requestBody|e]; cbn; [|reflexivity].
  destruct (fetch abort_delay (net (url provider) requestBody)) as [[response|e]|] eqn:Hf;
    cbn; try reflexivity.
  - destruct (ok response); cbn; [|reflexivity].
    unfold response_json. destruct (body response) as [data| |]; cbn; try reflexivity.
    destruct (parseResponse provider data) as [result|e]; cbn; [|reflexivity].
    destruct (valid result); reflexivity.
  - exfalso. destruct (net (url provider) requestBody) as [t r|t e|]; cbn in Hf;
      try destruct (t <? abort_delay)%N; discriminate Hf.
Qed.

(** [callProvider] never settles with an exception, and it stays pending
    in one case only: the response headers arrive before the abort timer
    fires, the status is a success, and the body never completes. *)
Theorem callProvider_pending_iff_body_stalls (net : network) (provider : AIProvider)
    (userMessage : string) (context : option (list string)) :
  (forall e, callProvider net provider userMessage context <> Settled (Throw e)) /\
  (callProvider net provider userMessage context = Pending <->
   exists requestBody t r,
     formatRequest provider userMessage context = Return requestBody /\
     net (url provider) requestBody = responds t r /\
     (t < abort_delay)%N /\ ok r = true /\ body r = body_stalls).
Proof.
  split; [intros e; apply AiServiceFacts.callProvider_never_throws|].
  rewrite callProvider_cases.
  destruct (formatRequest provider userMessage context) as [requestBody|e].
  - destruct (net (url provider) requestBody) as [t r|t e|] eqn:Hn; cbn.
    + destruct (N.ltb_spec t abort_delay) as [Ht|Ht].
      * destruct (ok r) eqn:Hok.
        -- destruct (body r) as [data| |] eqn:Hb.
           ++ split; [|intros (b & t' & r' & Hb' & Hr & _ & _ & Hs);
                        injection Hb' as <-; rewrite Hn in Hr; injection Hr as <- <-; congruence].
              destruct (parseResponse provider data); discriminate.
           ++ split; [discriminate|].
              intros (b & t' & r' & Hb' & Hr & _ & _ & Hs).
              injection Hb' as <-. rewrite Hn in Hr. injection Hr as <- <-. congruence.
           ++ split; [|reflexivity]. intros _. exists requestBody, t, r. auto.
        -- split; [discriminate|].
           intros (b & t' & r' & Hb' & Hr & _ & Hok' & _).
           injection Hb' as <-. rewrite Hn in Hr. injection Hr as <- <-. congruence.
      * split; [discriminate|].
        intros (b & t' & r' & Hb' & Hr & Hlt & _).
        injection Hb' as <-. rewrite Hn in Hr. injection Hr as <- <-. lia.
    + split; [destruct (t <? abort_delay)%N; discriminate|].
      intros (b & t' & r' & Hb' & Hr & _). injection Hb' as <-. congruence.
    + split; [discriminate|].
      intros (b & t' & r' & Hb' & Hr & _). injection Hb' as <-. congruence.
  - split; [discriminate|]. intros (b & t' & r' & Hb' & _). discriminate.
Qed.

(** A text returned by [callProvider] is what the provider's parser made
    of a successful response that arrived before the abort timer fired; it
    is longer than ten characters and does not contain the apology
    marker. *)
Theorem callProvider_text_is_validated (net : network) (provider : AIProvider)
    (userMessage : string) (context : option (list string)) (text : string) :
  callProvider net provider userMessage context = Settled (Return (Some text)) ->
  (10 < String.length text)%nat /\
  includes text "Sorry, I could not generate" = false /\
  exists requestBody t r data,
    formatRequest provider userMessage context = Return requestBody /\
    net (url provider) requestBody = responds t r /\
    (t < abort_delay)%N /\ ok r = true /\ body r = body_json data /\
    parseResponse provider data = Return (Some text).
Proof.
  rewrite callProvider_cases.
  destruct (formatRequest provider userMessage context) as [requestBody|e]; [|discriminate].
  destruct (net (url provider) requestBody) as [t r|t e|] eqn:Hn; cbn;
    [|destruct (t <? abort_delay)%N; discriminate|discriminate].
  destruct (N.ltb_spec t abort_delay) as [Ht|Ht]; [|discriminate].
  destruct (ok r) eqn:Hok; [|discriminate].
  destruct (body r) as [data| |] eqn:Hb; try discriminate.
  destruct (parseResponse provider data) as [result|e] eqn:Hp; [|discriminate].
  destruct (valid result) eqn:Hv; [|discriminate].
  intros H. injection H as ->. unfold valid in Hv.
  apply andb_true_iff in Hv as [Hv Hs]. apply andb_true_iff in Hv as [_ Hl].
  apply Nat.ltb_lt in Hl. apply negb_true_iff in Hs.
  split; [exact Hl|]. split; [exact Hs|].
  exists requestBody, t, r, data. auto 10.
Qed.

Lemma callProvider_text_is_validated_witness :
  (10 < String.length "Volcanoes are openings in the crust of a planet.")%nat /\
  includes "Volcanoes are openings in the crust of a planet."
           "Sorry, I could not generate" = false /\
  exists requestBody t r data,
    formatRequest EducationalAI "tell me about volcanoes" None = Return requestBody /\
    third_answers 2 (url EducationalAI) requestBody = responds t r /\
    (t < abort_delay)%N /\ ok r = true /\ body r = body_json data /\
    parseResponse EducationalAI data
    = Return (Some "Volcanoes are openings in the crust of a planet.").
Proof.
  apply (callProvider_text_is_validated (third_answers 2) EducationalAI
           "tell me about volcanoes" None). reflexivity.
Defined.

(** A specific answer of the local responder is the whole response: the
    providers, the network, the random draw and the context play no part
    in it. *)
Theorem generateResponse_local_answer_is_final
    (ps ps' : list AIProvider) (net net' : nat -> network) (r r' : draw)
    (userMessage : string) (context context' : option (list string)) :
  isSpecific (getIntelligentResponse userMessage context) = true ->
  generateResponse ps net r userMessage context
  = Settled (Return {| message := local_message (getIntelligentResponse userMessage context);
                       suggestions := generateSuggestions userMessage;
                       relatedTopics := generateRelatedTopics userMessage |}) /\
  generateResponse ps' net' r' userMessage context'
  = generateResponse ps net r userMessage context.
Proof.
  intros H. unfold generateResponse.
  change (getIntelligentResponse userMessage context')
    with (getIntelligentResponse userMessage context).
  rewrite H. split; reflexivity.
Qed.

Lemma generateResponse_local_answer_is_final_witness :
  generateResponse providers third_answers (draw_of 1) "What is 2+2?" None
  = Settled (Return {| message := local_message (getIntelligentResponse "What is 2+2?" None);
                       suggestions := generateSuggestions "What is 2+2?";
                       relatedTopics := generateRelatedTopics "What is 2+2?" |}) /\
  generateResponse [] (fun _ _ _ => hangs) (draw_of 0) "What is 2+2?" (Some [])
  = generateResponse providers third_answers (draw_of 1) "What is 2+2?" None.
Proof.
  apply (generateResponse_local_answer_is_final providers [] third_answers
           (fun _ _ _ => hangs) (draw_of 1) (draw_of 0) "What is 2+2?" None (Some [])).
  reflexivity.
Defined.

Lemma generateSuggestions_four (userMessage : string) :
  List.length (generateSuggestions userMessage) = 4%nat.
Proof.
  unfold generateSuggestions.
  repeat match goal with |- context [if ?b then _ else _] => destruct b end; reflexivity.
Qed.

Lemma generateRelatedTopics_four (userMessage : string) :
  List.length (generateRelatedTopics userMessage) = 4%nat.
Proof.
  unfold generateRelatedTopics.
  repeat match goal with |- context [if ?b then _ else _] => destruct b end; reflexivity.
Qed.

Lemma getSimulatedResponse_counts (r : draw) (userMessage : string) :
  List.length (suggestions (getSimulatedResponse r userMessage)) = 4%nat /\
  (List.length (relatedTopics (getSimulatedResponse r userMessage)) = 4%nat \/
   List.length (relatedTopics (getSimulatedResponse r userMessage)) = 5%nat).
Proof.
  unfold getSimulatedResponse.
  repeat match goal with |- context [if ?b then _ else _] => destruct b end;
    cbn [suggestions relatedTopics List.length]; auto.
Qed.

(** The loop returns what follows it, or a response built from a
    provider's text. *)
Lemma try_providers_result (net : nat -> network) (ps : list AIProvider) (i : nat)
    (userMessage : string) (context : option (list string))
    (fallback : promise AIResponse) (response : AIResponse) :
  try_providers net ps i userMessage context fallback = Settled (Return response) ->
  fallback = Settled (Return response) \/
  (suggestions response = generateSuggestions userMessage /\
   relatedTopics response = generateRelatedTopics userMessage /\
   exists j p, nth_error ps j = Some p /\
     callProvider (net (i + j)%nat) p userMessage context
     = Settled (Return (Some (message response)))).
Proof.
  revert i. induction ps as [|p ps IH]; intros i; cbn [try_providers]; [auto|].
  destruct (callProvider (net i) p userMessage context) as [[[text|]|e]|] eqn:Hc;
    try discriminate.
  - destruct (truthy text).
    + intros H. injection H as <-. right. cbn. repeat split.
      exists 0%nat, p. rewrite Nat.add_0_r. auto.
    + intros H. destruct (IH (S i) H) as [Hf|(Hs & Hr & j & q & Hj & Hq)]; [auto|].
      right. repeat split; auto. exists (S j), q. rewrite <- Nat.add_succ_comm. auto.
  - intros H. destruct (IH (S i) H) as [Hf|(Hs & Hr & j & q & Hj & Hq)]; [auto|].
    right. repeat split; auto. exists (S j), q. rewrite <- Nat.add_succ_comm. auto.
  - intros H. destruct (IH (S i) H) as [Hf|(Hs & Hr & j & q & Hj & Hq)]; [auto|].
    right. repeat split; auto. exists (S j), q. rewrite <- Nat.add_succ_comm. auto.
Qed.

(** Every response of [generateResponse], whichever of the three sources
    it comes from, carries exactly four suggestions and four or five
    related topics. *)
Theorem generateResponse_four_suggestions (ps : list AIProvider) (net : nat -> network)
    (r : draw) (userMessage : string) (context : option (list string))
    (response : AIResponse) :
  generateResponse ps net r userMessage context = Settled (Return response) ->
  List.length (suggestions response) = 4%nat /\
  (List.length (relatedTopics response) = 4%nat \/
   List.length (relatedTopics response) = 5%nat).
Proof.
  unfold generateResponse. destruct (isSpecific _).
  - intros H. injection H as <-. cbn [suggestions relatedTopics].
    rewrite generateSuggestions_four, generateRelatedTopics_four. auto.
  - intros H. apply try_providers_result in H as [H|(Hs & Hr & _)].
    + injection H as <-. apply getSimulatedResponse_counts.
    + rewrite Hs, Hr, generateSuggestions_four, generateRelatedTopics_four. auto.
Qed.

Lemma generateResponse_four_suggestions_witness :
  List.length (suggestions (getSimulatedResponse (draw_of 2) "hello")) = 4%nat /\
  (List.length (relatedTopics (getSimulatedResponse (draw_of 2) "hello")) = 4%nat \/
   List.length (relatedTopics (getSimulatedResponse (draw_of 2) "hello")) = 5%nat).
Proof.
  apply (generateResponse_four_suggestions [] third_answers (draw_of 2) "hello" None).
  reflexivity.
Defined.

(** The canned response always has a text: the draw picks inside the
    pool of its keyword family, and no text of any pool is empty. *)
Theorem getSimulatedResponse_has_text (r : draw) (userMessage : string) :
  message (getSimulatedResponse r userMessage) <> EmptyString.
Proof.
  pose proof (index_below_lt r (n:=3) (Nat.lt_0_succ 2)) as H3.
  pose proof (index_below_lt r (n:=4) (Nat.lt_0_succ 3)) as H4.
  unfold getSimulatedResponse, pick.
  repeat match goal with |- context [if ?b then _ else _] => destruct b end;
    cbn [message List.length];
    try (destruct (r 3%nat) as [|[|[|n]]]; [| | |lia]; cbn [nth]; discriminate);
    destruct (r 4%nat) as [|[|[|[|n]]]]; [| | | |lia]; cbn [nth]; discriminate.
Qed.

(** A text that the parser of the first or of the third provider lets
    through is longer than twenty characters. *)
Theorem parsed_text_is_long (data : json) (text : string) :
  parseResponse HuggingFace data = Return (Some text) \/
  parseResponse EducationalAI data = Return (Some text) ->
  (20 < String.length text)%nat.
Proof.
  intros [H|H]; cbn [parseResponse HuggingFace EducationalAI] in H; unfold bind in H;
    repeat match type of H with
           | context [match ?x with _ => _ end] => destruct x eqn:?; try discriminate H
           end;
    injection H as <-; now apply Nat.ltb_lt.
Qed.

Lemma parsed_text_is_long_witness :
  (20 < String.length "Volcanoes are openings in the crust of a planet.")%nat.
Proof.
  apply (parsed_text_is_long
           (JObj [("generations", JArr
              [JObj [("text", JStr " Response: Volcanoes are openings in the crust of a planet. ")]])])).
  right. reflexivity.
Defined.

(** The abort timer is armed at 10000 milliseconds, neither sooner nor
    later: of two successful responses with the same valid body,
    [callProvider] returns the text of the one whose headers arrive
    before 10000 ms and [null] for the one whose headers arrive at 10000
    ms or after. *)
Theorem callProvider_abort_threshold (net : network) (provider : AIProvider)
    (userMessage : string) (context : option (list string))
    (requestBody : json) (t : N) (r : response) (data : json) (text : string) :
  formatRequest provider userMessage context = Return requestBody ->
  net (url provider) requestBody = responds t r ->
  ok r = true -> body r = body_json data ->
  parseResponse provider data = Return (Some text) ->
  valid (Some text) = true ->
  callProvider net provider userMessage context
  = Settled (Return (if (t <? 10000)%N then Some text else None)).
Proof.
  intros Hf Hn Hok Hb Hp Hv. rewrite callProvider_cases, Hf, Hn. cbn [fetch].
  change abort_delay with 10000%N.
  destruct (t <? 10000)%N; [|reflexivity].
  now rewrite Hok, Hb, Hp, Hv.
Qed.

Lemma callProvider_abort_threshold_witness :
  callProvider (third_answers 2) EducationalAI "tell me about volcanoes" None
  = Settled (Return (if (840 <? 10000)%N
                     then Some "Volcanoes are openings in the crust of a planet."
                     else None)).
Proof.
  apply (callProvider_abort_threshold (third_answers 2) EducationalAI
           "tell me about volcanoes" None
           (match formatRequest EducationalAI "tell me about volcanoes" None with
            | Return b => b
            | Throw _ => JNull
            end)
           840
           {| ok := true; status := 200; statusText := "OK";
              body := body_json (JObj [("generations", JArr
                [JObj [("text", JStr " Response: Volcanoes are openings in the crust of a planet. ")]])]) |}
           (JObj [("generations", JArr
                [JObj [("text", JStr " Response: Volcanoes are openings in the crust of a planet. ")]])]));
    reflexivity.
Defined.

(** A request that nothing answers, that fails on the network, whose
    headers arrive at 10000 ms or later, or that is answered with a status
    that is not a success, makes [callProvider] return [null]: it settles,
    and does not throw. *)
Theorem callProvider_null_on_failure (net : network) (provider : AIProvider)
    (userMessage : string) (context : option (list string)) (requestBody : json) :
  formatRequest provider userMessage context = Return requestBody ->
  match net (url provider) requestBody with
  | hangs => True
  | fails _ _ => True
  | responds t r => (10000 <= t)%N \/ ok r = false
  end ->
  callProvider net provider userMessage context = Settled (Return None).
Proof.
  intros Hf Hn. rewrite callProvider_cases, Hf.
  destruct (net (url provider) requestBody) as [t r|t e|]; cbn [fetch].
  - change abort_delay with 10000%N.
    destruct (N.ltb_spec t 10000) as [Ht|Ht]; [|reflexivity].
    destruct Hn as [Hn|Hn]; [lia|]. now rewrite Hn.
  - now destruct (t <? abort_delay)%N.
  - reflexivity.
Qed.

Lemma callProvider_null_on_failure_witness :
  callProvider (third_answers 0) HuggingFace "tell me about volcanoes" None
  = Settled (Return None).
Proof.
  apply (callProvider_null_on_failure (third_answers 0) HuggingFace
           "tell me about volcanoes" None
           (match formatRequest HuggingFace "tell me about volcanoes" None with
            | Return b => b
            | Throw _ => JNull
            end)); [reflexivity | exact I].
Defined.

End AiServiceMore.

(* ------------------------------------------------------------------ *)
(** ** Strings                                                         *)
(* ------------------------------------------------------------------ *)

Module StringFacts.
Import Js.

Lemma lower_ascii_idempotent (c : ascii) : lower_ascii (lower_ascii c) = lower_ascii c.
Proof.
  destruct c as [[] [] [] [] [] [] [] []]; reflexivity.
Qed.

Lemma toLowerCase_idempotent (s : string) : toLowerCase (toLowerCase s) = toLowerCase s.
Proof.
  induction s as [|c s IH]; cbn; [reflexivity|].
  now rewrite lower_ascii_idempotent, IH.
Qed.

Lemma trimEnd_idempotent (s : string) : trimEnd (trimEnd s) = trimEnd s.
Proof.
  induction s as [|c s IH]; [reflexivity|]. cbn [trimEnd].
  destruct (trimEnd s) as [|d t] eqn:Ht.
  - destruct (is_space c) eqn:Hc; [reflexivity|]. cbn. now rewrite Hc.
  - cbn [trimEnd] in *. now rewrite IH.
Qed.

(** A string that does not start with white space keeps its first
    character under [trimEnd]. *)
Lemma trimEnd_keeps_head (c : ascii) (s : string) :
  is_space c = false -> exists t, trimEnd (String c s) = String c t.
Proof.
  intros Hc. cbn [trimEnd]. destruct (trimEnd s) as [|d t]; rewrite ?Hc; eauto.
Qed.

Lemma trimStart_head (s : string) :
  trimStart s = EmptyString \/
  exists c t, trimStart s = String c t /\ is_space c = false.
Proof.
  induction s as [|c s IH]; [now left|]. cbn.
  destruct (is_space c) eqn:Hc; [exact IH|]. right. eauto.
Qed.

Lemma trim_idempotent (s : string) : trim (trim s) = trim s.
Proof.
  unfold trim. destruct (trimStart_head s) as [->|(c & t & -> & Hc)]; [reflexivity|].
  destruct (trimEnd_keeps_head c t Hc) as [u Hu]. rewrite Hu.
  cbn [trimStart]. rewrite Hc, <- Hu. apply trimEnd_idempotent.
Qed.

Lemma all_chars_trimStart (p : ascii -> bool) (s : string) :
  all_chars p s = true -> all_chars p (trimStart s) = true.
Proof.
  induction s as [|c s IH]; cbn; [auto|]. intros H.
  destruct (is_space c); [|exact H]. apply andb_true_iff in H as [_ H]. auto.
Qed.

Lemma all_chars_trimEnd (p : ascii -> bool) (s : string) :
  all_chars p s = true -> all_chars p (trimEnd s) = true.
Proof.
  induction s as [|c s IH]; cbn [all_chars trimEnd]; [auto|]. intros H.
  apply andb_true_iff in H as [Hc H]. specialize (IH H).
  destruct (trimEnd s) as [|d t].
  - destruct (is_space c); cbn; rewrite ?Hc; reflexivity.
  - cbn [all_chars] in *. now rewrite Hc, IH.
Qed.

Lemma all_chars_trim (p : ascii -> bool) (s : string) :
  all_chars p s = true -> all_chars p (trim s) = true.
Proof.
  intros H. unfold trim. now apply all_chars_trimEnd, all_chars_trimStart.
Qed.

End StringFacts.

(* ------------------------------------------------------------------ *)
(** ** The local responder                                             *)
(* ------------------------------------------------------------------ *)

Module LocalResponderFacts.
Import Js AiService StringFacts.
Local Open Scope string_scope.

(** Lower-casing a message first changes nothing in what the local
    responder answers, nor in the suggestions and the related topics: all
    three read the message in lower case only. *)
Theorem local_responder_ignores_case (userMessage : string) (context : option (list string)) :
  getIntelligentResponse (toLowerCase userMessage) context
  = getIntelligentResponse userMessage context /\
  generateSuggestions (toLowerCase userMessage) = generateSuggestions userMessage /\
  generateRelatedTopics (toLowerCase userMessage) = generateRelatedTopics userMessage.
Proof.
  unfold getIntelligentResponse, generateSuggestions, generateRelatedTopics.
  rewrite toLowerCase_idempotent. repeat split.
Qed.

Lemma all_chars_take_while (p : ascii -> bool) (s : string) :
  all_chars p (take_while p s) = true.
Proof.
  induction s as [|c s IH]; cbn; [reflexivity|].
  destruct (p c) eqn:Hc; cbn; [now rewrite Hc|reflexivity].
Qed.

Lemma match_group_chars (lit s g : string) :
  match_group lit s = Some g ->
  all_chars (fun c => is_word c || is_space c) g = true.
Proof.
  induction s as [|c s IH]; cbn [match_group].
  - destruct (prefix _ _); [|discriminate].
    destruct (take_while _ _) eqn:Ht; [discriminate|].
    intros H. injection H as <-. rewrite <- Ht. apply all_chars_take_while.
  - destruct (prefix _ _).
    + destruct (take_while _ _) eqn:Ht; [exact IH|].
      intros H. injection H as <-. rewrite <- Ht. apply all_chars_take_while.
    + exact IH.
Qed.

Lemma first_match_chars (patterns : list string) (message topic : string) :
  first_match patterns message = Some topic ->
  all_chars (fun c => is_word c || is_space c) topic = true /\ trim topic = topic.
Proof.
  induction patterns as [|lit rest IH]; cbn; [discriminate|].
  destruct (match_group lit message) as [g|] eqn:Hg; [|exact IH].
  intros H. injection H as <-. split.
  - apply all_chars_trim. exact (match_group_chars lit message g Hg).
  - apply trim_idempotent.
Qed.

(** A topic that [extractTopicFromQuestion] finds consists of letters,
    digits, underscores and white space only, and has no white space at
    either end. *)
Theorem extracted_topic_is_clean (message topic : string) :
  extractTopicFromQuestion message = Some topic ->
  all_chars (fun c => is_word c || is_space c) topic = true /\ trim topic = topic.
Proof.
  unfold extractTopicFromQuestion. intros H.
  destruct (first_match_chars _ message topic H) as [Hchars Htrim].
  split; [exact Hchars | exact Htrim].
Qed.

Lemma extracted_topic_is_clean_witness :
  all_chars (fun c => is_word c || is_space c) "the water cycle" = true /\
  trim "the water cycle" = "the water cycle".
Proof.
  apply (extracted_topic_is_clean "so what is  the water cycle ?? really"). reflexivity.
Defined.

End LocalResponderFacts.

(* ------------------------------------------------------------------ *)
(** ** Matchmaking queue: failures                                     *)
(* ------------------------------------------------------------------ *)

Module MatchmakingFailures.
Import Js GameRouter Matchmaking MatchmakingFacts.

Ltac run_hook :=
  unfold joinQueue, leaveQueue, catch, and_then, request_, setState,
    monitorForMatches, modify, throw, ret, send; cbn [fst snd].

(** C5.  [leaveQueue] does not always remove the caller's rows: it never
    reads the [error] of its delete, as [joinQueue] does for its insert.
    When the network loses the request, it still returns normally, having
    sent its one delete, and reports the player as not queued, while the
    table, the caller's rows included, is what it was. *)
Theorem leaveQueue_ignores_lost_delete (u : User) (st : MatchmakingState) (w : world) :
  hd delivered (network w) = dropped ->
  exists st' w',
    leaveQueue (Some u) (st, w) = ((st', w'), Return tt) /\
    isQueued st' = false /\
    matchmaking_queue (db w') = matchmaking_queue (db w) /\
    sent w' = sent w ++ [delete_eq_player_id (user_id u)].
Proof.
  intros H. run_hook.
  destruct (network w) as [|f fs]; cbn in H; [discriminate|]. subst f.
  cbn. do 2 eexists. repeat split.
Qed.

Lemma leaveQueue_ignores_lost_delete_witness :
  exists st' w',
    leaveQueue (Some alice) (initialState, offline_world) = ((st', w'), Return tt) /\
    isQueued st' = false /\
    matchmaking_queue (db w') = matchmaking_queue (db offline_world) /\
    sent w' = sent offline_world ++ [delete_eq_player_id (user_id alice)].
Proof.
  apply (leaveQueue_ignores_lost_delete alice initialState offline_world). reflexivity.
Defined.

Lemma send_delivered (q : request) (w : world) :
  hd delivered (network w) = delivered ->
  send q w
  = ({| db := fst (execute (auth_uid w) q (db w)); auth_uid := auth_uid w;
        sent := sent w ++ [q]; network := tl (network w); channels := channels w |},
     snd (execute (auth_uid w) q (db w))).
Proof.
  intros H. unfold send. destruct (network w) as [|f fs]; cbn in H; subst;
    now destruct (execute (auth_uid w) q (db w)).
Qed.

Lemma send_dropped (q : request) (w : world) :
  hd delivered (network w) = dropped ->
  send q w
  = ({| db := db w; auth_uid := auth_uid w;
        sent := sent w ++ [q]; network := tl (network w); channels := channels w |},
     Some (PostgrestError EmptyString)).
Proof.
  intros H. unfold send. destruct (network w) as [|f fs]; cbn in H; [discriminate|].
  now subst.
Qed.

(** The insert of a row for the caller, by the caller, into a table that
    holds none of the caller's rows. *)
Lemma insert_own (uid : string) (mode : GameMode) (skill : Z) (d : database) :
  filter (fun r => String.eqb (player_id r) uid) (matchmaking_queue d) = [] ->
  execute (Some uid) (insert uid mode skill) d
  = ({| matchmaking_queue := matchmaking_queue d ++
          [{| row_id := next_id d; player_id := uid; game_mode := mode; skill_level := skill |}];
        next_id := S (next_id d); unique_player_mode := unique_player_mode d |}, None).
Proof.
  intros Hnone. unfold execute. cbn [own_row player_id]. rewrite String.eqb_refl. cbn [negb].
  assert (He : existsb (same_key uid mode) (matchmaking_queue d) = false).
  { induction (matchmaking_queue d) as [|r q IH]; [reflexivity|]. cbn in *.
    unfold same_key at 1. destruct (String.eqb (player_id r) uid); [discriminate|].
    cbn. now apply IH. }
  now rewrite He, andb_false_r.
Qed.

(** With the session of the user and both requests delivered,
    [joinQueue] succeeds, under either schema of the table: it returns
    normally, reports the player as queued and subscribes to the games of
    the player. *)
Theorem joinQueue_succeeds_when_delivered (u : User) (gameMode : GameMode)
    (st : MatchmakingState) (w : world) :
  auth_uid w = Some (user_id u) ->
  hd delivered (network w) = delivered ->
  hd delivered (tl (network w)) = delivered ->
  exists st' w',
    joinQueue (Some u) gameMode (st, w) = ((st', w'), Return tt) /\
    isQueued st' = true /\ isMatched st' = false /\
    List.length (rows_of (user_id u) w') = 1%nat /\
    List.length (channels w') = S (List.length (channels w)).
Proof.
  intros Hauth H1 H2.
  unfold joinQueue, catch, and_then, request_, setState, monitorForMatches, modify, throw, ret.
  cbn [fst snd]. rewrite (send_delivered _ w H1), Hauth. cbn [fst snd].
  rewrite send_delivered by exact H2. cbn [auth_uid db].
  rewrite insert_own by (rewrite delete_own; apply no_own_rows_after_delete).
  cbn [fst snd]. do 2 eexists. split; [reflexivity|].
  unfold rows_of. cbn [isQueued isMatched db channels matchmaking_queue].
  rewrite delete_own, filter_app, no_own_rows_after_delete, length_app.
  cbn. rewrite String.eqb_refl. cbn. repeat split.
  rewrite length_app. cbn. lia.
Qed.

Lemma joinQueue_succeeds_when_delivered_witness :
  exists st' w',
    joinQueue (Some alice) spellbee (initialState, unique_world) = ((st', w'), Return tt) /\
    isQueued st' = true /\ isMatched st' = false /\
    List.length (rows_of (user_id alice) w') = 1%nat /\
    List.length (channels w') = S (List.length (channels unique_world)).
Proof.
  apply (joinQueue_succeeds_when_delivered alice spellbee initialState unique_world);
    reflexivity.
Defined.

(** C10.  A successful [joinQueue] does not always leave the caller with
    one row: it reads the [error] of its insert but not that of its delete.
    When the delete is lost and the insert is delivered and accepted (the
    table has no unique constraint, or the caller has no row for this game
    mode), it returns normally, reports the player as queued, and the
    caller keeps every earlier row beside the new one. *)
Theorem joinQueue_keeps_rows_when_delete_is_lost (u : User) (gameMode : GameMode)
    (st : MatchmakingState) (w : world) :
  unique_player_mode (db w)
    && existsb (same_key (user_id u) gameMode) (matchmaking_queue (db w)) = false ->
  auth_uid w = Some (user_id u) ->
  hd delivered (network w) = dropped ->
  hd delivered (tl (network w)) = delivered ->
  exists st' w' r,
    joinQueue (Some u) gameMode (st, w) = ((st', w'), Return tt) /\
    isQueued st' = true /\
    rows_of (user_id u) w' = rows_of (user_id u) w ++ [r] /\
    game_mode r = gameMode.
Proof.
  intros Hu Hauth H1 H2.
  unfold joinQueue, catch, and_then, request_, setState, monitorForMatches, modify, throw, ret.
  cbn [fst snd]. rewrite (send_dropped _ w H1). cbn [fst snd].
  rewrite send_delivered by exact H2. cbn [auth_uid db].
  unfold execute. rewrite Hauth. cbn [own_row player_id]. rewrite String.eqb_refl, Hu.
  cbn [negb andb fst snd]. do 3 eexists. split; [reflexivity|].
  unfold rows_of. cbn [isQueued db matchmaking_queue].
  rewrite filter_app. cbn. rewrite String.eqb_refl. repeat split.
Qed.

Lemma joinQueue_keeps_rows_when_delete_is_lost_witness :
  exists st' w' r,
    joinQueue (Some alice) comprehension (initialState, flaky_unique_world)
    = ((st', w'), Return tt) /\
    isQueued st' = true /\
    rows_of (user_id alice) w' = rows_of (user_id alice) flaky_unique_world ++ [r] /\
    game_mode r = comprehension.
Proof.
  apply (joinQueue_keeps_rows_when_delete_is_lost alice comprehension initialState
           flaky_unique_world);
    reflexivity.
Defined.

(** A [joinQueue] whose insert is lost after its delete was carried out
    throws the error of the insert, leaves the hook's state and
    subscriptions as they were, and has already taken the caller out of
    the queue. *)
Theorem joinQueue_failed_insert_has_dequeued (u : User) (gameMode : GameMode)
    (st : MatchmakingState) (w : world) :
  auth_uid w = Some (user_id u) ->
  hd delivered (network w) = delivered ->
  hd delivered (tl (network w)) = dropped ->
  exists w',
    joinQueue (Some u) gameMode (st, w) = ((st, w'), Throw (PostgrestError EmptyString)) /\
    rows_of (user_id u) w' = [] /\
    rows_of_others (user_id u) w' = rows_of_others (user_id u) w /\
    channels w' = channels w.
Proof.
  intros Hauth H1 H2.
  unfold joinQueue, catch, and_then, request_, setState, monitorForMatches, modify, throw, ret.
  cbn [fst snd]. rewrite (send_delivered _ w H1), Hauth. cbn [fst snd].
  rewrite send_dropped by exact H2. cbn [fst snd].
  eexists. split; [reflexivity|].
  unfold rows_of, rows_of_others. cbn [db channels].
  rewrite delete_own, no_own_rows_after_delete, others_after_delete. repeat split.
Qed.

Lemma joinQueue_failed_insert_has_dequeued_witness :
  exists w',
    joinQueue (Some alice) spellbee (initialState, failing_world)
    = ((initialState, w'), Throw (PostgrestError EmptyString)) /\
    rows_of (user_id alice) w' = [] /\
    rows_of_others (user_id alice) w' = rows_of_others (user_id alice) failing_world /\
    channels w' = channels failing_world.
Proof.
  apply (joinQueue_failed_insert_has_dequeued alice spellbee initialState failing_world);
    reflexivity.
Defined.

End MatchmakingFailures.

(* ------------------------------------------------------------------ *)
(** ** Experience, accuracy and rank: further properties               *)
(* ------------------------------------------------------------------ *)

Module ExperienceFacts.
Import Js GameRouter Profiles GameRouterFacts.

Lemma rnd_eq_Z (R : rounding) (x : Q) (z : Z) :
  (Z.abs z <= 2 ^ 53)%Z -> x == inject_Z z -> R x == inject_Z z.
Proof.
  intros Hz Hx. transitivity (R (inject_Z z)); [now apply rnd_proper | now apply rnd_int].
Qed.

Lemma Math_round_Z (x : Q) (z : Z) : x == inject_Z z -> Math_round x = z.
Proof.
  intros Hx. assert (H : (z <= Math_round x <= z)%Z); [|lia].
  apply Math_round_bounds. rewrite Hx. split; apply Qle_refl.
Qed.

Lemma ratio_zero (total : Z) : inject_Z 0 / inject_Z total == inject_Z 0.
Proof. unfold Qdiv. apply Qmult_0_l. Qed.

Lemma ratio_one (total : Z) : (0 < total)%Z -> inject_Z total / inject_Z total == inject_Z 1.
Proof.
  intros Ht. apply Qmult_inv_r. intros H.
  assert (Hq : 0 < inject_Z total) by (change 0 with (inject_Z 0); now rewrite <- Zlt_Qlt).
  rewrite H in Hq. discriminate Hq.
Qed.

(** Whatever the rounding, a score of zero earns exactly the base
    experience (10 or 15) and a full score exactly 15 more (25 or 30). *)
Theorem calculateExpGained_endpoints (R : rounding) (total : Z) (gameMode : GameMode) :
  (0 < total)%Z ->
  let base := match gameMode with comprehension => 10%Z | spellbee => 15%Z end in
  calculateExpGained R 0 total gameMode = Some base /\
  calculateExpGained R total total gameMode = Some (base + 15)%Z.
Proof.
  intros Ht base. unfold calculateExpGained.
  destruct (Z.eqb_spec total 0) as [->|Hne]; [lia|].
  assert (H0 : fdiv R (inject_Z 0) (inject_Z total) == inject_Z 0)
    by (apply rnd_eq_Z; [simpl; lia | apply ratio_zero]).
  assert (H1 : fdiv R (inject_Z total) (inject_Z total) == inject_Z 1)
    by (apply rnd_eq_Z; [simpl; lia | now apply ratio_one]).
  split; f_equal; apply Math_round_Z; unfold fadd, fmul;
    destruct gameMode; subst base; cbn [GameMode_eqb];
    (apply rnd_eq_Z; [simpl; lia|]).
  - rewrite (rnd_eq_Z R _ 0); [reflexivity | simpl; lia | rewrite H0; reflexivity].
  - rewrite (rnd_eq_Z R _ 0); [reflexivity | simpl; lia | rewrite H0; reflexivity].
  - rewrite (rnd_eq_Z R _ 15); [reflexivity | simpl; lia | rewrite H1; reflexivity].
  - rewrite (rnd_eq_Z R _ 15); [reflexivity | simpl; lia | rewrite H1; reflexivity].
Qed.

Lemma calculateExpGained_endpoints_witness :
  calculateExpGained exact 0 8 spellbee = Some 15%Z /\
  calculateExpGained exact 8 8 spellbee = Some (15 + 15)%Z.
Proof.
  apply (calculateExpGained_endpoints exact 8 spellbee). lia.
Defined.

(** The accuracy shown at the end of a game, [Math.round((score / total)
    * 100)], is a whole percentage between 0 and 100 whenever the score
    does not exceed a positive total, whatever the rounding. *)
Theorem percentage_range (R : rounding) (score total : nat) :
  (score <= total)%nat -> (0 < total)%nat ->
  exists p : Z, SpellingBee.percentage R score total = Some p /\ (0 <= p <= 100)%Z.
Proof.
  intros Hs Ht. unfold SpellingBee.percentage.
  destruct (Nat.eqb_spec total 0) as [->|_]; [lia|].
  eexists. split; [reflexivity|].
  assert (Hp : 0 <= fdiv R (inject_Z (Z.of_nat score)) (inject_Z (Z.of_nat total)) <= 1).
  { destruct (ratio_bounds (Z.of_nat score) (Z.of_nat total)) as [H0 H1]; [lia|lia|].
    unfold fdiv. split.
    - apply (rnd_Z_le R 0); [simpl; lia|exact H0].
    - apply (rnd_le_Z R 1); [simpl; lia|exact H1]. }
  destruct Hp as [Hp0 Hp1].
  apply Math_round_bounds. unfold fmul. split.
  - apply (rnd_Z_le R 0); [simpl; lia|].
    change (inject_Z 0) with 0. apply Qmult_le_0_compat; [exact Hp0|discriminate].
  - apply (rnd_le_Z R 100); [simpl; lia|].
    change (inject_Z 100) with (1 * 100). apply Qmult_le_r; [reflexivity|exact Hp1].
Qed.

Lemma percentage_range_witness :
  exists p : Z, SpellingBee.percentage exact 5 8 = Some p /\ (0 <= p <= 100)%Z.
Proof.
  apply (percentage_range exact 5 8); lia.
Defined.

(** The trigger never leaves the rank [NULL] or below 1, whatever the
    experience of the row, [NULL] included; a row without experience gets
    rank 1. *)
Theorem update_user_rank_at_least_one (NEW : profile) :
  exists r : Z,
    rank (update_user_rank NEW) = Some r /\ (1 <= r)%Z /\
    (exp NEW = None -> r = 1%Z).
Proof.
  unfold update_user_rank. cbn [rank].
  destruct (exp NEW) as [e|]; cbn.
  - eexists. split; [reflexivity|]. split; [|discriminate].
    apply Z.le_max_l.
  - exists 1%Z. auto with zarith.
Qed.

(** For experience that is not negative the ranks are steps of 100: rank
    [r] holds the experience from [100 (r - 1)] up to [100 r - 1]. *)
Theorem update_user_rank_steps (NEW : profile) (e : Z) :
  exp NEW = Some e -> (0 <= e)%Z ->
  exists r : Z,
    rank (update_user_rank NEW) = Some r /\ (100 * (r - 1) <= e < 100 * r)%Z.
Proof.
  intros He H0. unfold update_user_rank. cbn [rank]. rewrite He, RankFacts.rank_formula.
  eexists. split; [reflexivity|].
  rewrite Z.quot_div_nonneg by lia.
  pose proof (Z.div_mod e 100). pose proof (Z.mod_pos_bound e 100).
  pose proof (Z.div_pos e 100). lia.
Qed.

Lemma update_user_rank_steps_witness :
  exists r : Z,
    rank (update_user_rank {| id := Js.empty; exp := Some 250%Z; rank := None |}) = Some r /\
    (100 * (r - 1) <= 250 < 100 * r)%Z.
Proof.
  apply (update_user_rank_steps _ 250); [reflexivity|lia].
Defined.

(** The gain of a game with a positive number of items and a score
    within it. *)
Lemma gain_bounds (R : rounding) (score total : Z) (gameMode : GameMode) :
  (0 <= score <= total)%Z -> (0 < total)%Z ->
  exists gained : Z,
    calculateExpGained R score total gameMode = Some gained /\ (10 <= gained <= 30)%Z.
Proof.
  intros Hs Ht. unfold calculateExpGained.
  destruct (Z.eqb_spec total 0) as [->|_]; [lia|].
  eexists. split; [reflexivity|].
  assert (Hp : 0 <= fdiv R (inject_Z score) (inject_Z total) <= 1).
  { destruct (ratio_bounds score total Hs Ht) as [H0 H1]. unfold fdiv. split.
    - apply (rnd_Z_le R 0); [simpl; lia|exact H0].
    - apply (rnd_le_Z R 1); [simpl; lia|exact H1]. }
  destruct gameMode; cbn [GameMode_eqb].
  - assert (H : (10 <= Math_round (fadd R 10 (fmul R 15
                   (fdiv R (inject_Z score) (inject_Z total)))) <= 10 + 15)%Z); [|lia].
    apply Math_round_bounds. apply (rounded_sum_bounds R 10); [lia|exact Hp].
  - assert (H : (15 <= Math_round (fadd R 15 (fmul R 15
                   (fdiv R (inject_Z score) (inject_Z total)))) <= 15 + 15)%Z); [|lia].
    apply Math_round_bounds. apply (rounded_sum_bounds R 15); [lia|exact Hp].
Qed.

(** After a game with a positive number of items and a score within it,
    an update that goes through stores the experience of the page's cached
    profile plus a gain between 10 and 30 (whatever the row held before),
    with the rank the trigger derives from it, and the page announces that
    gain. *)
Theorem handleGameEnd_adds_experience (R : rounding) (cached : option profile)
    (score total : Z) (gameMode : GameMode) (row : profile) :
  (0 <= score <= total)%Z -> (0 < total)%Z ->
  exists gained : Z,
    (10 <= gained <= 30)%Z /\
    PvP.handleGameEnd R cached true score total gameMode row
    = ({| id := id row;
          exp := Some (PvP.exp_or_0 cached + gained)%Z;
          rank := Some (Z.max 1 ((PvP.exp_or_0 cached + gained) / 100 + 1)) |},
       PvP.game_complete (Some gained) score total).
Proof.
  intros Hs Ht. destruct (gain_bounds R score total gameMode Hs Ht) as (g & Hg & Hr).
  exists g. split; [exact Hr|].
  unfold PvP.handleGameEnd. rewrite Hg. unfold update_exp, update_user_rank. cbn [id exp rank].
  now rewrite RankFacts.rank_formula, RankFacts.rank_quot_div.
Qed.

Lemma handleGameEnd_adds_experience_witness :
  exists gained : Z,
    (10 <= gained <= 30)%Z /\
    PvP.handleGameEnd exact (Some PvP.veteran) true 4 5 comprehension PvP.veteran
    = ({| id := id PvP.veteran;
          exp := Some (PvP.exp_or_0 (Some PvP.veteran) + gained)%Z;
          rank := Some (Z.max 1 ((PvP.exp_or_0 (Some PvP.veteran) + gained) / 100 + 1)) |},
       PvP.game_complete (Some gained) 4 5).
Proof.
  apply (handleGameEnd_adds_experience exact (Some PvP.veteran) 4 5 comprehension PvP.veteran);
    lia.
Defined.

(** A game that ends with no item at all has no finite gain; an update
    that goes through then stores [NULL] as the experience, whatever the
    player had, and the trigger sets the rank back to 1. *)
Theorem handleGameEnd_without_items_erases_experience (R : rounding)
    (cached : option profile) (score : Z) (gameMode : GameMode) (row : profile) :
  PvP.handleGameEnd R cached true score 0 gameMode row
  = ({| id := id row; exp := None; rank := Some 1%Z |},
     PvP.game_complete None score 0).
Proof.
  unfold PvP.handleGameEnd, calculateExpGained. cbn [Z.eqb].
  unfold update_exp, update_user_rank. reflexivity.
Qed.

End ExperienceFacts.

(* ------------------------------------------------------------------ *)
(** ** Comprehension battle: further properties                        *)
(* ------------------------------------------------------------------ *)

Module ComprehensionBattleMore.
Import Js React ComprehensionBattle ArrayFacts ComprehensionBattleFacts.
Local Open Scope nat_scope.

(** The render throws exactly when the question view is due and there is
    no current question; the first render of the component, before any
    content is loaded, is such a render. *)
Theorem render_throws_without_question (c : state) :
  ((exists e, render c = Throw e) <->
   (gamePhase c = loading \/ gamePhase c = questions_phase) /\
   List.length (questions c) <= currentQuestion c) /\
  (exists e, render initial = Throw e).
Proof.
  split; [|eexists; reflexivity].
  unfold render. destruct (gamePhase c) eqn:Hp.
  - destruct (nth_error (questions c) (currentQuestion c)) eqn:Hq.
    + split; [intros [e H]; discriminate H|].
      intros [_ H]. apply nth_error_None in H. congruence.
    + split; [|eauto]. intros _. split; [auto|]. now apply nth_error_None.
  - split; [intros [e H]; discriminate H|]. intros [[H|H] _]; discriminate H.
  - destruct (nth_error (questions c) (currentQuestion c)) eqn:Hq.
    + split; [intros [e H]; discriminate H|].
      intros [_ H]. apply nth_error_None in H. congruence.
    + split; [|eauto]. intros _. split; [auto|]. now apply nth_error_None.
  - split; [intros [e H]; discriminate H|]. intros [[H|H] _]; discriminate H.
Qed.

(** What [finishGame] does to the pending state: nothing when its
    [reduce] throws, and otherwise the score, the phase and one call. *)
Lemma finishGame_run (c : state) (p : store state Call) :
  finishGame c p =
  match reduce (fun (score : nat) answer index =>
      match nth_error (questions c) index with
      | None => Throw (TypeError "Cannot read properties of undefined")
      | Some q => Return (if strict_eq answer (VNum (correctAnswer q))
                          then score + 1 else score)
      end) (finalAnswers c) 0 with
  | Return n =>
      (({| questions := questions (fst p); currentQuestion := currentQuestion (fst p);
           selectedAnswer := selectedAnswer (fst p); answers := answers (fst p);
           timeLeft := timeLeft (fst p); gamePhase := finished;
           readingTimeLeft := readingTimeLeft (fst p); score := n |},
        snd p ++ [(n, List.length (questions c))]), Return tt)
  | Throw e => (p, Throw e)
  end.
Proof.
  unfold finishGame, and_then, lift. destruct (reduce _ _ _); reflexivity.
Qed.

(** Every event driven by the countdown or by the user keeps a state well
    formed. *)
Theorem step_keeps_well_formed (c : state) (e : event) :
  well_formed c -> enabled c e = true -> timer_or_user e = true ->
  well_formed (next (step c e)).
Proof.
  intros [Hlen Hcur] He Hu. unfold well_formed, step, run.
  destruct e; try discriminate Hu; cbn [handle].
  - unfold readingTimer.
    repeat match goal with |- context [if ?b then _ else _] => destruct b end; cbn; auto.
  - unfold questionsTimer.
    repeat match goal with |- context [if ?b then _ else _] => destruct b end;
      rewrite ?finishGame_run; try destruct (reduce _ _ _); cbn; auto.
  - cbn. auto.
  - cbn. auto.
  - unfold handleNextQuestion, and_then. cbn -[finishGame assign Nat.ltb Nat.sub reduce].
    destruct (Nat.ltb_spec (currentQuestion c) (List.length (questions c) - 1)).
    + cbn. rewrite length_assign by (rewrite length_literal, length_spread; lia).
      rewrite length_literal, length_spread. split; lia.
    + rewrite finishGame_run. destruct (reduce _ _ _); cbn;
        rewrite length_assign by (rewrite length_literal, length_spread; lia);
        rewrite length_literal, length_spread; split; lia.
  - cbn. split; [exact Hlen|lia].
Qed.

Lemma step_keeps_well_formed_witness :
  well_formed (next (step last_question click_previous)).
Proof.
  apply (step_keeps_well_formed last_question click_previous);
    [split; [reflexivity | cbn; lia] | reflexivity | reflexivity].
Defined.

(** On the last question of a well-formed state, the Next button ends
    the game with the score of exactly the answers it stores: the answers
    array of the next render, with the selection written into the last
    slot. *)
Theorem next_on_last_question_scores_stored_answers (c : state) :
  well_formed c ->
  truthy (selectedAnswer c) = true ->
  currentQuestion c = List.length (questions c) - 1 ->
  let o := step c click_next in
  thrown o = None /\
  gamePhase (next o) = finished /\
  score (next o) = count_correct (answers (next o)) (questions (next o)) /\
  calls o = [(score (next o), List.length (questions c))].
Proof.
  intros [Hlen Hcur] Hsel Hlast. unfold step, run. cbn [handle].
  unfold handleNextQuestion, and_then. cbn -[finishGame assign Nat.ltb Nat.sub reduce].
  destruct (Nat.ltb_spec (currentQuestion c) (List.length (questions c) - 1)); [lia|].
  rewrite finishGame_run. unfold reduce.
  rewrite reduce_counts
    by (rewrite length_finalAnswers; [cbn; lia | exact Hlen | now left]).
  cbn. rewrite assign_as_slices by lia.
  unfold finalAnswers. rewrite Hsel. auto.
Qed.

Lemma next_on_last_question_scores_stored_answers_witness :
  let o := step last_question click_next in
  thrown o = None /\
  gamePhase (next o) = finished /\
  score (next o) = count_correct (answers (next o)) (questions (next o)) /\
  calls o = [(score (next o), List.length (questions last_question))].
Proof.
  apply (next_on_last_question_scores_stored_answers last_question);
    [split; [reflexivity | cbn; lia] | reflexivity | reflexivity].
Defined.

(** A finished game is over: no countdown and no click changes its state
    or calls [onGameEnd] again. *)
Theorem finished_is_final (c : state) (e : event) :
  gamePhase c = finished -> enabled c e = true -> timer_or_user e = true ->
  step c e = {| next := c; calls := []; thrown := None |}.
Proof.
  intros Hp He Hu. unfold enabled in He. apply andb_true_iff in He as [_ He].
  unfold step, run.
  destruct e; try discriminate Hu; cbn [handle] in *.
  - unfold readingTimer. rewrite Hp. reflexivity.
  - unfold questionsTimer. rewrite Hp. reflexivity.
  - unfold shows, render in He. rewrite Hp in He. discriminate He.
  - unfold shows, render in He. rewrite Hp in He. discriminate He.
  - unfold shows, render in He. rewrite Hp in He. discriminate He.
  - unfold shows, render in He. rewrite Hp in He. discriminate He.
Qed.

Lemma finished_is_final_witness :
  step (next (step last_question click_next)) questions_tick
  = {| next := next (step last_question click_next); calls := []; thrown := None |}.
Proof.
  apply (finished_is_final (next (step last_question click_next)) questions_tick);
    reflexivity.
Defined.

Lemma reading_tick_enabled (c : state) :
  gamePhase c = reading -> enabled c reading_tick = true.
Proof.
  intros Hp. unfold enabled, mounted, render. now rewrite Hp.
Qed.

(** The reading countdown: from the reading phase with [n] seconds left,
    [n] ticks bring the clock to zero and one more starts the questions;
    nothing else changes. *)
Theorem reading_countdown_starts_questions (c : state) :
  gamePhase c = reading ->
  after c (repeat reading_tick (S (readingTimeLeft c)))
  = Some {| questions := questions c; currentQuestion := currentQuestion c;
            selectedAnswer := selectedAnswer c; answers := answers c;
            timeLeft := timeLeft c; gamePhase := questions_phase;
            readingTimeLeft := 0; score := score c |}.
Proof.
  remember (readingTimeLeft c) as n eqn:Hn. revert c Hn.
  induction n as [|n IH]; intros c Hn Hp.
  - cbn [repeat after]. rewrite reading_tick_enabled by exact Hp.
    unfold step, run. cbn [handle].
    unfold readingTimer. rewrite Hp, <- Hn. cbn. now rewrite <- Hn.
  - change (repeat reading_tick (S (S n))) with (reading_tick :: repeat reading_tick (S n)).
    cbn [after]. rewrite reading_tick_enabled by exact Hp.
    rewrite (IH (next (step c reading_tick))).
    + unfold step, run. cbn [handle]. unfold readingTimer. rewrite Hp, <- Hn. reflexivity.
    + unfold step, run. cbn [handle]. unfold readingTimer. rewrite Hp, <- Hn. cbn. lia.
    + unfold step, run. cbn [handle]. unfold readingTimer. rewrite Hp, <- Hn. cbn. exact Hp.
Qed.

Lemma reading_countdown_starts_questions_witness :
  after just_loaded (repeat reading_tick (S (readingTimeLeft just_loaded)))
  = Some {| questions := questions just_loaded; currentQuestion := currentQuestion just_loaded;
            selectedAnswer := selectedAnswer just_loaded; answers := answers just_loaded;
            timeLeft := timeLeft just_loaded; gamePhase := questions_phase;
            readingTimeLeft := 0; score := score just_loaded |}.
Proof.
  apply (reading_countdown_starts_questions just_loaded). reflexivity.
Defined.

(** The answer key of a stored question is compared with the position
    of the chosen option counted from zero: in a game of one question
    taken from the table, choosing option [i] (of the four, 0 to 3) and
    pressing Next scores 1 exactly when [correct_answer] is [i].  A key of
    4, which the check [BETWEEN 1 AND 4] of one of the two migrations
    admits, is matched by no option. *)
Theorem selection_is_scored_by_zero_based_index (row : ComprehensionQuestion)
    (i seconds : nat) :
  i < 4 ->
  let c := {| questions := formatQuestions [row]; currentQuestion := 0;
              selectedAnswer := toString i; answers := Array_fill 1 null;
              timeLeft := seconds; gamePhase := questions_phase;
              readingTimeLeft := 0; score := 0 |} in
  enabled c (select (toString i)) = true /\
  enabled c click_next = true /\
  calls (step c click_next)
  = [(if (Z.of_nat i =? correct_answer row)%Z then 1 else 0, 1)] /\
  (correct_answer row = 4%Z -> calls (step c click_next) = [(0, 1)]).
Proof.
  intros Hi c.
  assert (Hcalls : calls (step c click_next)
                   = [(if (Z.of_nat i =? correct_answer row)%Z then 1 else 0, 1)]).
  { subst c. destruct i as [|[|[|[|i]]]]; [| | | |lia];
      cbn -[Z.eqb number_eq parseInt];
      match goal with
      | |- context [parseInt ?s] =>
          let v := eval vm_compute in (parseInt s) in change (parseInt s) with v
      end;
      cbn -[Z.eqb]; destruct (Z.eqb _ (correct_answer row)); reflexivity. }
  split; [|split; [|split; [exact Hcalls|]]].
  - subst c. destruct i as [|[|[|[|i]]]]; [| | | |lia]; reflexivity.
  - subst c. destruct i as [|[|[|[|i]]]]; [| | | |lia]; reflexivity.
  - intros H4. rewrite Hcalls, H4.
    destruct i as [|[|[|[|i]]]]; [| | | |lia]; reflexivity.
Qed.

Lemma selection_is_scored_by_zero_based_index_witness :
  let c := {| questions := formatQuestions [solar_system_row]; currentQuestion := 0;
              selectedAnswer := toString 1; answers := Array_fill 1 null;
              timeLeft := 250; gamePhase := questions_phase;
              readingTimeLeft := 0; score := 0 |} in
  enabled c (select (toString 1)) = true /\
  enabled c click_next = true /\
  calls (step c click_next)
  = [(if (Z.of_nat 1 =? correct_answer solar_system_row)%Z then 1 else 0, 1)] /\
  (correct_answer solar_system_row = 4%Z -> calls (step c click_next) = [(0, 1)]).
Proof.
  apply (selection_is_scored_by_zero_based_index solar_system_row 1 250). lia.
Defined.

End ComprehensionBattleMore.

(* ------------------------------------------------------------------ *)
(** ** Spelling bee: further properties                                *)
(* ------------------------------------------------------------------ *)

Module SpellingBeeMore.
Import Js React SpellingBee ArrayFacts SpellingBeeFacts.
Local Open Scope nat_scope.

(** What [finishGame] does to the pending state: nothing when its
    [reduce] throws, and otherwise the score, the phase and one call. *)
Lemma spelling_finishGame_run (c : state) (p : store state Call) :
  finishGame c p =
  match reduce (fun (score : nat) answer index =>
      bind (toLowerCase_method answer) (fun lowered =>
      match nth_error (words c) index with
      | None => Throw (TypeError "Cannot read properties of undefined")
      | Some w => Return (if String.eqb lowered (toLowerCase (word w))
                          then score + 1 else score)
      end)) (finalAnswers c) 0 with
  | Return n =>
      (({| words := words (fst p); loading := loading (fst p);
           currentWord := currentWord (fst p); userInput := userInput (fst p);
           answers := answers (fst p); timeLeft := timeLeft (fst p);
           gamePhase := finished; score := n; showHint := showHint (fst p) |},
        snd p ++ [(n, List.length (words c))]), Return tt)
  | Throw e => (p, Throw e)
  end.
Proof.
  unfold finishGame, and_then, lift. destruct (reduce _ _ _); reflexivity.
Qed.

Lemma nth_error_assign (a : array) (i : nat) (v : value) :
  nth_error (assign a i v) i = Some (Some v).
Proof.
  revert a. induction i as [|i IH]; intros [|x a]; cbn; auto.
Qed.

Lemma forallb_assign (a : array) (i : nat) (v : value) :
  forallb holds_string a = true -> holds_string (Some v) = true -> i < List.length a ->
  forallb holds_string (assign a i v) = true.
Proof.
  revert i. induction a as [|x a IH]; intros [|i] Ha Hv Hi; cbn in *; try lia.
  - apply andb_true_iff in Ha as [_ Ha]. now rewrite Hv, Ha.
  - apply andb_true_iff in Ha as [Hx Ha]. rewrite Hx. apply IH; auto; lia.
Qed.

(** On the last word, Skip ends the game exactly as Next does: the text
    in the input box, which Skip does not store, is scored all the same,
    while the slot Skip writes for the word is the empty string. *)
Theorem skip_on_last_word_scores_typed_input (c : state) :
  List.length (words c) - 1 <= currentWord c ->
  calls (step c click_skip) = calls (step c click_next) /\
  thrown (step c click_skip) = thrown (step c click_next) /\
  score (next (step c click_skip)) = score (next (step c click_next)) /\
  gamePhase (next (step c click_skip)) = gamePhase (next (step c click_next)) /\
  nth_error (answers (next (step c click_skip))) (currentWord c)
  = Some (Some (VStr EmptyString)).
Proof.
  intros Hlast. unfold step, run. cbn [handle].
  unfold handleSkipWord, handleNextWord, and_then.
  cbn -[finishGame assign Nat.ltb Nat.sub reduce].
  destruct (Nat.ltb_spec (currentWord c) (List.length (words c) - 1)); [lia|].
  rewrite !spelling_finishGame_run. destruct (reduce _ _ _); cbn;
    rewrite nth_error_assign; auto.
Qed.

Lemma skip_on_last_word_scores_typed_input_witness :
  calls (step last_word click_skip) = calls (step last_word click_next) /\
  thrown (step last_word click_skip) = thrown (step last_word click_next) /\
  score (next (step last_word click_skip)) = score (next (step last_word click_next)) /\
  gamePhase (next (step last_word click_skip)) = gamePhase (next (step last_word click_next)) /\
  nth_error (answers (next (step last_word click_skip))) (currentWord last_word)
  = Some (Some (VStr EmptyString)).
Proof.
  apply (skip_on_last_word_scores_typed_input last_word). cbn. lia.
Defined.

(** Every event driven by the countdown or by the user keeps a state well
    formed: the answers stay one string per word, and the current word
    stays a word of the list. *)
Theorem spelling_step_keeps_well_formed (c : state) (e : event) :
  well_formed c -> timer_or_user e = true ->
  well_formed (next (step c e)).
Proof.
  intros (Hlen & Hstr & Hcur) Hu. unfold well_formed, step, run.
  assert (Hassign : forall v, holds_string (Some v) = true ->
            List.length (assign (literal (spread (answers c))) (currentWord c) v)
            = List.length (words c) /\
            forallb holds_string (assign (literal (spread (answers c))) (currentWord c) v)
            = true).
  { intros v Hv. rewrite literal_spread_strings by exact Hstr. split.
    - rewrite length_assign; lia.
    - apply forallb_assign; auto; lia. }
  destruct e; try discriminate Hu; cbn [handle].
  - unfold gameTimer.
    repeat match goal with |- context [if ?b then _ else _] => destruct b end;
      rewrite ?spelling_finishGame_run; try destruct (reduce _ _ _); cbn; auto.
  - cbn. auto.
  - unfold handleNextWord, and_then. cbn -[finishGame assign Nat.ltb Nat.sub reduce].
    destruct (Hassign (VStr (trim (userInput c))) eq_refl) as [H1 H2].
    destruct (Nat.ltb_spec (currentWord c) (List.length (words c) - 1)).
    + cbn -[assign]. repeat split; auto; lia.
    + rewrite spelling_finishGame_run. destruct (reduce _ _ _); cbn -[assign]; auto.
  - unfold handleNextWord, and_then. cbn -[finishGame assign Nat.ltb Nat.sub reduce].
    destruct (Hassign (VStr (trim (userInput c))) eq_refl) as [H1 H2].
    destruct (Nat.ltb_spec (currentWord c) (List.length (words c) - 1)).
    + cbn -[assign]. repeat split; auto; lia.
    + rewrite spelling_finishGame_run. destruct (reduce _ _ _); cbn -[assign]; auto.
  - unfold handleSkipWord, and_then. cbn -[finishGame assign Nat.ltb Nat.sub reduce].
    destruct (Hassign (VStr EmptyString) eq_refl) as [H1 H2].
    destruct (Nat.ltb_spec (currentWord c) (List.length (words c) - 1)).
    + cbn -[assign]. repeat split; auto; lia.
    + rewrite spelling_finishGame_run. destruct (reduce _ _ _); cbn -[assign]; auto.
  - cbn. auto.
Qed.

Lemma spelling_step_keeps_well_formed_witness :
  well_formed (next (step last_word click_next)).
Proof.
  apply (spelling_step_keeps_well_formed last_word click_next);
    [repeat split; cbn; lia | reflexivity].
Defined.

(** The word view throws exactly when the words are loaded, the game is
    being played and there is no current word; a load that brings no word
    at all leads to such a render. *)
Theorem render_throws_without_word (c : state) :
  ((exists e, render c = Throw e) <->
   loading c = false /\ gamePhase c = playing /\
   List.length (words c) <= currentWord c) /\
  (exists e, render (next (step initial (words_loaded (Return [])))) = Throw e).
Proof.
  split; [|eexists; reflexivity].
  unfold render. destruct (loading c).
  - split; [intros [e H]; discriminate H|]. intros [H _]. discriminate H.
  - destruct (gamePhase c).
    + destruct (nth_error (words c) (currentWord c)) eqn:Hw.
      * split; [intros [e H]; discriminate H|].
        intros (_ & _ & H). apply nth_error_None in H. congruence.
      * split; [|eauto]. intros _. repeat split. now apply nth_error_None.
    + split; [intros [e H]; discriminate H|]. intros (_ & H & _). discriminate H.
Qed.

End SpellingBeeMore.

(* ------------------------------------------------------------------ *)
(** ** Content: the words, the answer keys, the clock                  *)
(* ------------------------------------------------------------------ *)

Module ContentFacts.
Import Js React.
Local Open Scope nat_scope.

Lemma in_firstn {A : Type} (n : nat) (l : list A) (x : A) : In x (firstn n l) -> In x l.
Proof.
  revert n. induction l as [|y l IH]; intros [|n] H; cbn in *; try contradiction.
  destruct H as [H|H]; [now left|right; exact (IH n H)].
Qed.

(** [getRandomSpellingWords] never fails: whatever the query answers and
    however the shuffle orders its argument, it returns at most [count]
    words, each of them a row of an answer without error; a query that
    failed gives the empty list. *)
Theorem getRandomSpellingWords_never_fails
    (shuffle : list SpellingBee.SpellingWord -> list SpellingBee.SpellingWord)
    (count : nat) (answer : SpellingBee.query_result) :
  (forall l w, In w (shuffle l) -> In w l) ->
  exists ws,
    SpellingBee.getRandomSpellingWords shuffle count answer = Return ws /\
    List.length ws <= count /\
    (forall w, In w ws ->
       SpellingBee.error answer = None /\
       exists rows, SpellingBee.data answer = Some rows /\ In w rows) /\
    (SpellingBee.error answer <> None -> ws = []).
Proof.
  intros Hshuffle.
  unfold SpellingBee.getRandomSpellingWords, SpellingBee.fetchSpellingWords, try_catch, bind.
  destruct (SpellingBee.error answer) as [e|] eqn:He.
  - exists []. cbn. repeat split; auto; try lia; try (intros w []);
      try (match goal with H : In _ [] |- _ => destruct H end).
  - destruct (SpellingBee.data answer) as [rows|] eqn:Hd.
    + destruct (List.length rows =? 0) eqn:Hz.
      * exists []. repeat split; auto; cbn; try lia; try (intros w []);
      try (match goal with H : In _ [] |- _ => destruct H end).
      * eexists. split; [reflexivity|]. split; [|split].
        -- rewrite length_firstn. lia.
        -- intros w Hw. split; [reflexivity|]. exists rows. split; [reflexivity|].
           apply Hshuffle. eapply in_firstn. exact Hw.
        -- intros H. now elim H.
    + exists []. cbn. repeat split; auto; try lia; try (intros w []);
      try (match goal with H : In _ [] |- _ => destruct H end).
Qed.

Lemma getRandomSpellingWords_never_fails_witness :
  exists ws,
    SpellingBee.getRandomSpellingWords (@rev _) 3
      {| SpellingBee.data := Some SpellingBee.sampleWords; SpellingBee.error := None |}
    = Return ws /\
    List.length ws <= 3 /\
    (forall w, In w ws ->
       SpellingBee.error
         {| SpellingBee.data := Some SpellingBee.sampleWords; SpellingBee.error := None |}
       = None /\
       exists rows,
         SpellingBee.data
           {| SpellingBee.data := Some SpellingBee.sampleWords; SpellingBee.error := None |}
         = Some rows /\ In w rows) /\
    (SpellingBee.error
       {| SpellingBee.data := Some SpellingBee.sampleWords; SpellingBee.error := None |}
     <> None -> ws = []).
Proof.
  apply (getRandomSpellingWords_never_fails (@rev _) 3
           {| SpellingBee.data := Some SpellingBee.sampleWords; SpellingBee.error := None |}).
  intros l w H. now apply in_rev.
Defined.

(** Because the hook turns a failed query into an empty list, the spelling
    bee never reaches its sample words that way: it is left with no word,
    and its next render throws. *)
Theorem failed_query_leaves_no_word
    (shuffle : list SpellingBee.SpellingWord -> list SpellingBee.SpellingWord)
    (count : nat) (answer : SpellingBee.query_result) (e : error) :
  SpellingBee.error answer = Some e ->
  let c := next (SpellingBee.step SpellingBee.initial
             (SpellingBee.words_loaded
                (SpellingBee.getRandomSpellingWords shuffle count answer))) in
  SpellingBee.words c = [] /\
  SpellingBee.loading c = false /\
  exists e', SpellingBee.render c = Throw e'.
Proof.
  intros He.
  unfold SpellingBee.getRandomSpellingWords, SpellingBee.fetchSpellingWords, try_catch, bind.
  rewrite He. cbn. repeat split. eexists. reflexivity.
Qed.

Lemma failed_query_leaves_no_word_witness :
  let c := next (SpellingBee.step SpellingBee.initial
             (SpellingBee.words_loaded
                (SpellingBee.getRandomSpellingWords (fun l => l) 8
                   {| SpellingBee.data := None;
                      SpellingBee.error := Some (PostgrestError "42501") |}))) in
  SpellingBee.words c = [] /\
  SpellingBee.loading c = false /\
  exists e', SpellingBee.render c = Throw e'.
Proof.
  apply (failed_query_leaves_no_word (fun l => l) 8
           {| SpellingBee.data := None; SpellingBee.error := Some (PostgrestError "42501") |}
           (PostgrestError "42501")).
  reflexivity.
Defined.

End ContentFacts.
